(** * label_batch_effects.PCRMinus_only.py

    A shallow embedding of
    [src/sv-pipeline/scripts/downstream_analysis_and_filtering/label_batch_effects.PCRMinus_only.py]
    and the properties of its record reclassifier, its classification-table
    loader and its emission filter.

    The VCF library (pysam) is outside the script.  Its objects are modelled
    by the interface the script uses: a record's FILTER is a finite set of
    tags with the library's [add] (which replaces the [PASS] placeholder by
    the first tag added), its INFO is a finite map from keys to
    values, its samples are a finite map from sample names to per-sample
    FORMAT maps, and indexing a map at a missing key raises [KeyError].  The
    csv reader is modelled by the rows it yields (one list of fields per row),
    a text file by the lines that iterating over it yields. *)

From stdpp Require Import gmap strings list fin_maps.

Set Warnings "-clear-no-such-hyp".

Open Scope string_scope.
Open Scope list_scope.

(** ** Data model *)

(** A value of an INFO or FORMAT field.  A genotype call is a tuple of allele
    indices, [None] for a missing allele: [(0, 1)] is
    [VTuple [Some 0; Some 1]] and [(None,)] is [VTuple [None]]. *)
Inductive value : Type :=
  | VBool (b : bool)
  | VInt (n : Z)
  | VStr (s : string)
  | VTuple (t : list (option Z)).

#[global] Instance value_eq_dec : EqDecision value.
Proof. solve_decision. Defined.

(** The FORMAT fields of one sample of one record, [record.samples[s]]. *)
Abbreviation sample := (gmap string value).

(** One VCF row, [pysam.VariantRecord]. [id] is [None] for a row whose ID
    column is the missing marker. *)
Record VariantRecord : Type := mkRecord {
  chrom : string;
  pos : Z;
  id : option string;
  ref : string;
  alts : list string;
  filter : gset string;
  info : gmap string value;
  samples : gmap string sample
}.

(** An opened input VCF: the sample names of its header, in order, and its
    rows. *)
Record VariantFile : Type := mkVariantFile {
  header_samples : list string;
  records : list VariantRecord
}.

Definition set_filter (f : gset string) (r : VariantRecord) : VariantRecord :=
  mkRecord (chrom r) (pos r) (id r) (ref r) (alts r) f (info r) (samples r).

Definition set_info (i : gmap string value) (r : VariantRecord) : VariantRecord :=
  mkRecord (chrom r) (pos r) (id r) (ref r) (alts r) (filter r) i (samples r).

Definition set_samples (s : gmap string sample) (r : VariantRecord) : VariantRecord :=
  mkRecord (chrom r) (pos r) (id r) (ref r) (alts r) (filter r) (info r) s.

(** Python's [x in l] on a list of strings. *)
Definition py_in (x : string) (l : list string) : bool := bool_decide (x ∈ l).

(** [d.keys()] of a mapping, as a list. *)
Definition keys {V : Type} (d : gmap string V) : list string := (map_to_list d).*1.

(** ** reclassify_record *)

(** [filter.add(key)] of the VCF library (pysam's [VariantRecordFilter.add],
    which calls htslib's [bcf_add_filter]), on the set of tags.  The library
    is not part of the source; this follows what it does: [.] stands for
    [PASS]; a tag that is already set is not added again; adding [PASS]
    clears the other tags; adding another tag to a FILTER that holds [PASS]
    alone replaces [PASS]; otherwise the tag joins the set. *)
Definition add_tag (key : string) (tags : gset string) : gset string :=
  let key := if decide (key = ".") then "PASS" else key in
  if decide (key ∈ tags) then tags
  else if decide (key = "PASS") then {[ key ]}
  else if decide (tags = {[ "PASS" ]}) then {[ key ]}
  else {[ key ]} ∪ tags.

(** [record.filter.add(tag)].  The three tags that the script adds are
    declared in the header by lines 70-84 of [main]. *)
Definition filter_add (tag : string) (record : VariantRecord) : VariantRecord :=
  set_filter (add_tag tag (filter record)) record.

(** Lines 20-22 and 26-28:
    [[
    if key not in record.info.keys():
        record.info.keys().append(key)
    record.info[key] = True
    ]]
    [record.info.keys()] builds a new list at each call, so the [append]
    extends a list that is dropped at once; the assignment is what reaches the
    record. *)
Definition info_set_flag (key : string) (record : VariantRecord) : VariantRecord :=
  let _dropped :=
    if negb (py_in key (keys (info record)))
    then keys (info record) ++ [key]
    else keys (info record) in
  set_info (<[ key := VBool true ]> (info record)) record.

(** The genotype written by the nulling loops, [(None, None)]. *)
Definition NULL_GT : value := VTuple [None; None].

(** [smp['GT'] = (None, None)] on the FORMAT map of one sample. *)
Definition null_GT (smp : sample) : sample := <[ "GT" := NULL_GT ]> smp.

(** [[
    for samp in record.samples:
        if test(samp):
            record.samples[samp]['GT'] = (None, None)
    ]] *)
Definition null_loop (test : string → bool) (record : VariantRecord) : VariantRecord :=
  set_samples
    (foldl (λ smps samp, if test samp then alter null_GT samp smps else smps)
           (samples record) (keys (samples record)))
    record.

(** Lines 17-30: the FILTER tags and INFO flags. *)
Definition annotate (reclass : list string) (record : VariantRecord) : VariantRecord :=
  let record :=
    if py_in "PCRPLUS_ENRICHED" reclass
    then filter_add "PCRPLUS_ENRICHED" record else record in
  let record :=
    if py_in "PCRPLUS_DEPLETED" reclass
    then info_set_flag "PCRPLUS_DEPLETED" record else record in
  let record :=
    if py_in "VARIABLE_ACROSS_BATCHES" reclass
    then filter_add "VARIABLE_ACROSS_BATCHES" record else record in
  let record :=
    if py_in "UNSTABLE_AF_PCRPLUS" reclass
    then info_set_flag "UNSTABLE_AF_PCRPLUS" record else record in
  let record :=
    if py_in "UNSTABLE_AF_PCRMINUS" reclass
    then filter_add "UNSTABLE_AF_PCRMINUS" record else record in
  record.

(** Lines 32-42: the two genotype-nulling loops. *)
Definition null_genotypes (reclass plus_samples : list string)
    (record : VariantRecord) : VariantRecord :=
  let record :=
    if py_in "PCRPLUS_ENRICHED" reclass || py_in "UNSTABLE_AF_PCRPLUS" reclass
    then null_loop (λ samp, negb (py_in samp plus_samples)) record
    else record in
  let record :=
    if py_in "PCRPLUS_DEPLETED" reclass || py_in "UNSTABLE_AF_PCRMINUS" reclass
    then null_loop (λ samp, py_in samp plus_samples) record
    else record in
  record.

Definition reclassify_record (record : VariantRecord)
    (reclass plus_samples : list string) : VariantRecord :=
  null_genotypes reclass plus_samples (annotate reclass record).

(** ** The script's effects

    [main] writes records to the output file and may stop on a Python
    exception.  A computation takes the records written so far and returns
    them, extended, with either its value or the exception that stopped it. *)

Inductive exn : Type := ValueError | KeyError.

Inductive result (A : Type) : Type :=
  | Ok (a : A)
  | Raise (e : exn).
Arguments Ok {A} a.
Arguments Raise {A} e.

Definition M (A : Type) : Type := list VariantRecord → list VariantRecord * result A.

#[global] Instance M_ret : MRet M := λ A a fout, (fout, Ok a).

#[global] Instance M_bind : MBind M := λ A B k m fout,
  match m fout with
  | (fout', Ok a) => k a fout'
  | (fout', Raise e) => (fout', Raise e)
  end.

Definition raise {A : Type} (e : exn) : M A := λ fout, (fout, Raise e).

(** [fout.write(record)] *)
Definition write (record : VariantRecord) : M unit := λ fout, (fout ++ [record], Ok tt).

(** [d[k]] on a mapping. *)
Definition getitem {V : Type} (d : gmap string V) (k : string) : M V :=
  match d !! k with
  | Some v => mret v
  | None => raise KeyError
  end.

(** ** The classification table (lines 99-125) *)

(** [[
    if VID not in reclass_table.keys():
        reclass_table[VID] = [assignment]
    else:
        reclass_table[VID].append(assignment)
    ]] *)
Definition add_assignment (VID assignment : string)
    (reclass_table : gmap string (list string)) : gmap string (list string) :=
  if negb (py_in VID (keys reclass_table))
  then <[ VID := [assignment] ]> reclass_table
  else alter (λ l, l ++ [assignment]) VID reclass_table.

(** [for VID, assignment in reader: ...] over the rows the csv reader yields.
    Unpacking a row that has not exactly two fields raises [ValueError]. *)
Fixpoint read_table (reader : list (list string))
    (reclass_table : gmap string (list string)) : M (gmap string (list string)) :=
  match reader with
  | [] => mret reclass_table
  | [VID; assignment] :: reader' =>
      read_table reader' (add_assignment VID assignment reclass_table)
  | _ :: _ => raise ValueError
  end.

Definition newline : Ascii.ascii := Ascii.ascii_of_nat 10.

(** [line.rstrip('\n')]: the line without its trailing newline characters. *)
Fixpoint rstrip_newline (line : string) : string :=
  match line with
  | EmptyString => EmptyString
  | String c rest =>
      match rstrip_newline rest with
      | EmptyString => if Ascii.eqb c newline then EmptyString else String c EmptyString
      | rest' => String c rest'
      end
  end.

(** [[
    if path is not None:
        vids = [line.rstrip('\n') for line in open(path)]
        for VID in vids: ...
    ]]
    [lines] is [None] when the option was not given. *)
Definition add_vid_list (assignment : string) (lines : option (list string))
    (reclass_table : gmap string (list string)) : gmap string (list string) :=
  match lines with
  | None => reclass_table
  | Some lines =>
      foldl (λ table VID, add_assignment VID assignment table)
            reclass_table (rstrip_newline <$> lines)
  end.

(** Lines 99-125: the table of the main file merged with the two lists. *)
Definition load_table (reclassifications : list (list string))
    (unstable_af_pcrplus unstable_af_pcrminus : option (list string))
    : M (gmap string (list string)) :=
  reclass_table ← read_table reclassifications ∅;
  let reclass_table :=
    add_vid_list "UNSTABLE_AF_PCRPLUS" unstable_af_pcrplus reclass_table in
  let reclass_table :=
    add_vid_list "UNSTABLE_AF_PCRMINUS" unstable_af_pcrminus reclass_table in
  mret reclass_table.

(** ** The record loop (lines 131-151) *)

(** Line 140: [(0, 0), (None, None), (0, ), (None, ), (None, 2)]. *)
Definition NULL_GTs : list value :=
  [ VTuple [Some 0%Z; Some 0%Z]; VTuple [None; None]; VTuple [Some 0%Z];
    VTuple [None]; VTuple [None; Some 2%Z] ].

(** [reclass_table.get(record.id, None)] *)
Definition table_get (reclass_table : gmap string (list string))
    (vid : option string) : option (list string) :=
  match vid with
  | Some v => reclass_table !! v
  | None => None
  end.

(** Lines 148-151: write the record at the first header sample whose genotype
    is not in [NULL_GTs], and leave the loop. *)
Fixpoint emit_loop (header_samples : list string) (newrecord : VariantRecord) : M unit :=
  match header_samples with
  | [] => mret tt
  | s :: header_samples' =>
      smp ← getitem (samples newrecord) s;
      gt ← getitem smp "GT";
      if negb (bool_decide (gt ∈ NULL_GTs))
      then write newrecord
      else emit_loop header_samples' newrecord
  end.

(** Lines 142-151: the body of the loop over the input records. *)
Definition process_record (header_samples : list string)
    (reclass_table : gmap string (list string)) (plus_samples : list string)
    (record : VariantRecord) : M unit :=
  match table_get reclass_table (id record) with
  | None => write record
  | Some reclass =>
      let newrecord := reclassify_record record reclass plus_samples in
      emit_loop header_samples newrecord
  end.

(** [for x in xs: body(x)] *)
Fixpoint for_each {A : Type} (body : A → M unit) (xs : list A) : M unit :=
  match xs with
  | [] => mret tt
  | x :: xs' => body x ;; for_each body xs'
  end.

(** [main], from the opened input VCF, the rows of the reclassification table
    and the lines of the two optional lists.  The PCR-plus roster is the
    empty list of line 131. *)
Definition main (vcf : VariantFile) (reclassifications : list (list string))
    (unstable_af_pcrplus unstable_af_pcrminus : option (list string)) : M unit :=
  reclass_table ←
    load_table reclassifications unstable_af_pcrplus unstable_af_pcrminus;
  let plus_samples := [] in
  for_each (process_record (header_samples vcf) reclass_table plus_samples)
           (records vcf).

(** A run of the script starts with nothing written. *)
Definition run_main (vcf : VariantFile) (reclassifications : list (list string))
    (unstable_af_pcrplus unstable_af_pcrminus : option (list string))
    : list VariantRecord * result unit :=
  main vcf reclassifications unstable_af_pcrplus unstable_af_pcrminus [].

(** ** Notions used to state the properties *)

(** The rule table of the specification, genotype column: a sample is nulled
    when some label that is present says so.  [PCRPLUS_ENRICHED] and
    [UNSTABLE_AF_PCRPLUS] null the samples outside the roster,
    [PCRPLUS_DEPLETED] and [UNSTABLE_AF_PCRMINUS] those inside it. *)
Definition nulled (reclass plus_samples : list string) (s : string) : bool :=
  (py_in "PCRPLUS_ENRICHED" reclass || py_in "UNSTABLE_AF_PCRPLUS" reclass)
    && negb (py_in s plus_samples)
  || (py_in "PCRPLUS_DEPLETED" reclass || py_in "UNSTABLE_AF_PCRMINUS" reclass)
    && py_in s plus_samples.

(** The labels hold one of the three labels that add a FILTER tag. *)
Definition adds_tag (reclass : list string) : Prop :=
  "PCRPLUS_ENRICHED" ∈ reclass ∨ "VARIABLE_ACROSS_BATCHES" ∈ reclass
  ∨ "UNSTABLE_AF_PCRMINUS" ∈ reclass.

(** [tag] is a FILTER tag that the labels call for. *)
Definition triggered (reclass : list string) (tag : string) : Prop :=
  tag ∈ reclass
  ∧ (tag = "PCRPLUS_ENRICHED" ∨ tag = "VARIABLE_ACROSS_BATCHES"
     ∨ tag = "UNSTABLE_AF_PCRMINUS").

(** The genotype call of sample [s] in a record, when it has one. *)
Definition genotype (record : VariantRecord) (s : string) : option value :=
  samples record !! s ≫= (.!! "GT").

(** Whether sample [s] has a genotype call outside of [NULL_GTs]. *)
Definition informative (record : VariantRecord) (s : string) : bool :=
  match genotype record s with
  | Some gt => negb (bool_decide (gt ∈ NULL_GTs))
  | None => false
  end.

(** A run of a computation that writes [record] and nothing else, whatever
    was written before, and ends normally. *)
Definition emits (m : M unit) (record : VariantRecord) : Prop :=
  ∀ fout, m fout = (fout ++ [record], Ok tt).

(** A run that writes nothing and ends normally. *)
Definition drops (m : M unit) : Prop :=
  ∀ fout, m fout = (fout, Ok tt).

(** A row of a VCF whose header declares [header_samples]: the record has
    exactly these samples, and each of them has a genotype call. *)
Definition well_formed (header_samples : list string) (record : VariantRecord) : Prop :=
  (∀ s, s ∈ header_samples ↔ is_Some (samples record !! s))
  ∧ (∀ s smp, samples record !! s = Some smp → is_Some (smp !! "GT")).

(** [well_formed], as a test that can be run on a given record. *)
Definition well_formedb (header_samples : list string) (record : VariantRecord) : bool :=
  bool_decide (list_to_set header_samples =@{gset string} dom (samples record))
  && forallb (λ p : string * sample, bool_decide (is_Some (p.2 !! "GT")))
             (map_to_list (samples record)).

(** The null set as the specification words it, four shapes: homozygous
    reference, fully missing as a two-tuple and as a one-tuple, and the mixed
    form with one missing allele next to allele 2. *)
Definition four_shape_null_set : list value :=
  [ VTuple [Some 0%Z; Some 0%Z]; VTuple [None; None]; VTuple [None];
    VTuple [None; Some 2%Z] ].

(** Emission of a reclassified record is decided by [null_set]: the record is
    written exactly when some sample's genotype, after reclassification, is
    outside of [null_set]. *)
Definition emission_decided_by (null_set : list value)
    (header_samples : list string) (reclass_table : gmap string (list string))
    (plus_samples : list string) (record : VariantRecord) (reclass : list string) : Prop :=
  let newrecord := reclassify_record record reclass plus_samples in
  emits (process_record header_samples reclass_table plus_samples record) newrecord
  ↔ ∃ s gt, genotype newrecord s = Some gt ∧ gt ∉ null_set.

(** The (VID, label) pairs that the loader adds to the table, in the order in
    which it adds them: the rows of the main table, then one pair per line of
    the unstable-AF-PCR-plus list, then one per line of the PCR-minus list. *)
Definition row_pairs (reader : list (list string)) : list (string * string) :=
  flat_map (λ row, match row with [VID; a] => [(VID, a)] | _ => [] end) reader.

Definition list_pairs (assignment : string) (lines : option (list string))
    : list (string * string) :=
  (λ line, (rstrip_newline line, assignment)) <$> default [] lines.

Definition all_pairs (reclassifications : list (list string))
    (unstable_af_pcrplus unstable_af_pcrminus : option (list string))
    : list (string * string) :=
  row_pairs reclassifications
  ++ list_pairs "UNSTABLE_AF_PCRPLUS" unstable_af_pcrplus
  ++ list_pairs "UNSTABLE_AF_PCRMINUS" unstable_af_pcrminus.

(** The loader as one loop over the pairs it adds. *)
Definition add_pairs (pairs : list (string * string))
    (reclass_table : gmap string (list string)) : gmap string (list string) :=
  foldl (λ table p, add_assignment p.1 p.2 table) reclass_table pairs.

(** No entry of the table is an empty list. *)
Definition no_empty_entry (reclass_table : gmap string (list string)) : Prop :=
  ∀ v, reclass_table !! v ≠ Some [].

(** The labels paired with [v], in order and with their repetitions. *)
Definition labels_of (pairs : list (string * string)) (v : string) : list string :=
  (base.filter (λ p, p.1 = v) pairs).*2.

(** A table entry: absent when there is no label. *)
Definition entry (labels : list string) : option (list string) :=
  match labels with [] => None | _ => Some labels end.

(** The VIDs of the lines of a list file. *)
Definition listed (lines : option (list string)) : list string :=
  rstrip_newline <$> default [] lines.

(** How many times [v] is listed. *)
Definition occurrences (v : string) (vids : list string) : nat :=
  length (base.filter (λ x, x = v) vids).

(** The labels of [v] in the merged table, as the specification has them:
    its labels in the main table, then [UNSTABLE_AF_PCRPLUS] once per listing
    in the first list, then [UNSTABLE_AF_PCRMINUS] once per listing in the
    second. *)
Definition merged_labels (reclassifications : list (list string))
    (unstable_af_pcrplus unstable_af_pcrminus : option (list string))
    (v : string) : list string :=
  labels_of (row_pairs reclassifications) v
  ++ replicate (occurrences v (listed unstable_af_pcrplus)) "UNSTABLE_AF_PCRPLUS"
  ++ replicate (occurrences v (listed unstable_af_pcrminus)) "UNSTABLE_AF_PCRMINUS".

(** A record has no entry in the table. *)
Definition no_entry (reclass_table : gmap string (list string))
    (record : VariantRecord) : Prop :=
  table_get reclass_table (id record) = None.

#[global] Instance no_entry_dec reclass_table record :
  Decision (no_entry reclass_table record).
Proof. unfold no_entry. apply _. Defined.

(** The five labels that [reclassify_record] tests for. *)
Definition recognised : list string :=
  [ "PCRPLUS_ENRICHED"; "PCRPLUS_DEPLETED"; "VARIABLE_ACROSS_BATCHES";
    "UNSTABLE_AF_PCRPLUS"; "UNSTABLE_AF_PCRMINUS" ].

(** What identifies a row: the columns that no step of the script assigns. *)
Definition origin (record : VariantRecord)
    : string * Z * option string * string * list string :=
  (chrom record, pos record, id record, ref record, alts record).

(** What the loop body writes for one record when no key is missing: the
    record itself without a table entry, the reclassified record when one of
    its header samples is informative, nothing otherwise. *)
Definition written (header_samples : list string)
    (reclass_table : gmap string (list string)) (plus_samples : list string)
    (record : VariantRecord) : option VariantRecord :=
  match table_get reclass_table (id record) with
  | None => Some record
  | Some reclass =>
      let newrecord := reclassify_record record reclass plus_samples in
      if existsb (informative newrecord) header_samples
      then Some newrecord else None
  end.

(** A string of [k] newline characters. *)
Fixpoint newlines (k : nat) : string :=
  match k with
  | O => EmptyString
  | S k' => String newline (newlines k')
  end.

(** The last character of a string is a newline. *)
Fixpoint ends_with_newline (s : string) : bool :=
  match s with
  | EmptyString => false
  | String c EmptyString => Ascii.eqb c newline
  | String _ rest => ends_with_newline rest
  end.

(** The string has a newline character somewhere. *)
Fixpoint has_newline (s : string) : bool :=
  match s with
  | EmptyString => false
  | String c rest => Ascii.eqb c newline || has_newline rest
  end.

(** ** Sample inputs *)

Definition call (gt : list (option Z)) : sample :=
  <[ "GT" := VTuple gt ]> (<[ "GQ" := VInt 99 ]> ∅).

Definition varA : VariantRecord :=
  mkRecord "chr1" 1000 (Some "varA") "N" ["<DEL>"] {[ "HIGH_SR_BACKGROUND" ]}
    {[ "SVTYPE" := VStr "DEL" ]}
    (<[ "S1" := call [Some 0%Z; Some 1%Z] ]>
       (<[ "S2" := call [Some 1%Z; Some 1%Z] ]>
          (<[ "S3" := call [Some 0%Z; Some 0%Z] ]> ∅))).

(** A record that passed every filter: its FILTER column is [PASS]. *)
Definition varP : VariantRecord :=
  mkRecord "chr3" 4000 (Some "varP") "N" ["<DEL>"] {[ "PASS" ]} ∅
    (<[ "S1" := call [Some 0%Z; Some 1%Z] ]> ∅).

(** A record whose only sample is haploid reference, [(0,)]. *)
Definition varH : VariantRecord :=
  mkRecord "chrY" 2000 (Some "varH") "N" ["<DUP>"] ∅ ∅
    (<[ "S1" := call [Some 0%Z] ]> ∅).

(** A record of a VCF without samples. *)
Definition varN : VariantRecord :=
  mkRecord "chr2" 3000 (Some "varN") "N" ["<INS>"] ∅ ∅ ∅.

Definition LF : string := String newline EmptyString.

(** * Properties *)

(** ** Membership tests *)

Lemma py_in_true (x : string) (l : list string) : py_in x l = true ↔ x ∈ l.
Proof. unfold py_in. apply bool_decide_eq_true. Qed.

Lemma py_in_false (x : string) (l : list string) : py_in x l = false ↔ x ∉ l.
Proof. unfold py_in. apply bool_decide_eq_false. Qed.

Lemma py_in_nil (x : string) : py_in x [] = false.
Proof. apply py_in_false. apply not_elem_of_nil. Qed.

(** Case analysis on a membership test, with the fact it decides. *)
Ltac case_py_in x l :=
  let H := fresh "Hin" in
  destruct (py_in x l) eqn:H;
  [apply py_in_true in H | apply py_in_false in H].

Lemma elem_of_keys {V : Type} (d : gmap string V) (k : string) :
  k ∈ keys d ↔ is_Some (d !! k).
Proof.
  unfold keys. rewrite list_elem_of_fmap. split.
  - intros [[k' v] [-> Hin]]. apply elem_of_map_to_list in Hin. by exists v.
  - intros [v Hv]. exists (k, v). split; [done|]. by apply elem_of_map_to_list.
Qed.

Lemma NoDup_keys {V : Type} (d : gmap string V) : NoDup (keys d).
Proof. apply NoDup_fst_map_to_list. Qed.

(** ** The record fields each step touches *)

Section fields.
Implicit Types (record : VariantRecord) (smp : sample).

Lemma null_GT_idemp smp : null_GT (null_GT smp) = null_GT smp.
Proof. unfold null_GT. apply insert_insert_eq. Qed.

Lemma null_GT_lookup smp : null_GT smp !! "GT" = Some NULL_GT.
Proof. apply lookup_insert_eq. Qed.

Lemma null_GT_lookup_ne smp (k : string) :
  k ≠ "GT" → null_GT smp !! k = smp !! k.
Proof. intros Hk. unfold null_GT. by rewrite lookup_insert_ne. Qed.

(** A loop that alters the entries of a map at the keys of a duplicate-free
    list that pass a test. *)
Lemma foldl_alter_lookup {V : Type} (f : V → V) (test : string → bool)
    (ks : list string) (m : gmap string V) (s : string) :
  NoDup ks →
  foldl (λ acc k, if test k then alter f k acc else acc) m ks !! s
  = if bool_decide (s ∈ ks) && test s then f <$> m !! s else m !! s.
Proof.
  revert m. induction ks as [|k ks IH]; intros m Hnd; cbn [foldl].
  - rewrite bool_decide_eq_false_2; [done|apply not_elem_of_nil].
  - apply NoDup_cons in Hnd as [Hk Hnd]. rewrite IH by done.
    destruct (decide (s = k)) as [->|Hne].
    + rewrite (bool_decide_eq_false_2 (k ∈ ks)) by done.
      rewrite bool_decide_eq_true_2 by apply list_elem_of_here. simpl.
      destruct (test k); [|done]. by rewrite lookup_alter_eq.
    + assert ((if test k then alter f k m else m) !! s = m !! s) as Hstep.
      { destruct (test k); [|done]. by rewrite lookup_alter_ne. }
      assert (bool_decide (s ∈ k :: ks) = bool_decide (s ∈ ks)) as Hin.
      { apply bool_decide_ext. rewrite elem_of_cons. tauto. }
      by rewrite Hstep, Hin.
Qed.

Lemma null_loop_lookup (test : string → bool) record (s : string) :
  samples (null_loop test record) !! s
  = (λ smp, if test s then null_GT smp else smp) <$> samples record !! s.
Proof.
  unfold null_loop. simpl. rewrite foldl_alter_lookup by apply NoDup_keys.
  destruct (samples record !! s) as [smp|] eqn:Hs.
  - rewrite bool_decide_eq_true_2; [|apply elem_of_keys; by eexists].
    simpl. by destruct (test s).
  - by destruct (_ && _).
Qed.

Lemma null_genotypes_lookup (reclass plus_samples : list string) record (s : string) :
  samples (null_genotypes reclass plus_samples record) !! s
  = (λ smp, if nulled reclass plus_samples s then null_GT smp else smp)
      <$> samples record !! s.
Proof.
  unfold null_genotypes, nulled.
  destruct (py_in "PCRPLUS_ENRICHED" reclass || py_in "UNSTABLE_AF_PCRPLUS" reclass);
    destruct (py_in "PCRPLUS_DEPLETED" reclass || py_in "UNSTABLE_AF_PCRMINUS" reclass);
    cbn [andb orb]; rewrite ?null_loop_lookup;
    destruct (samples record !! s) as [smp|];
    cbn [fmap option_fmap option_map]; try done;
    destruct (py_in s plus_samples); cbn [negb andb orb];
    by rewrite ?null_GT_idemp.
Qed.
End fields.

(** ** What the two halves of [reclassify_record] leave alone *)

Section frame.
Implicit Types (record : VariantRecord) (reclass plus_samples : list string).

Lemma null_genotypes_fixed reclass plus_samples record :
  let record' := null_genotypes reclass plus_samples record in
  chrom record' = chrom record ∧ pos record' = pos record
  ∧ id record' = id record ∧ ref record' = ref record
  ∧ alts record' = alts record ∧ filter record' = filter record
  ∧ info record' = info record.
Proof.
  unfold null_genotypes.
  destruct (py_in "PCRPLUS_ENRICHED" reclass || py_in "UNSTABLE_AF_PCRPLUS" reclass);
    destruct (py_in "PCRPLUS_DEPLETED" reclass || py_in "UNSTABLE_AF_PCRMINUS" reclass);
    done.
Qed.

Lemma annotate_fixed reclass record :
  let record' := annotate reclass record in
  chrom record' = chrom record ∧ pos record' = pos record
  ∧ id record' = id record ∧ ref record' = ref record
  ∧ alts record' = alts record ∧ samples record' = samples record.
Proof.
  unfold annotate.
  destruct (py_in "PCRPLUS_ENRICHED" reclass);
    destruct (py_in "PCRPLUS_DEPLETED" reclass);
    destruct (py_in "VARIABLE_ACROSS_BATCHES" reclass);
    destruct (py_in "UNSTABLE_AF_PCRPLUS" reclass);
    destruct (py_in "UNSTABLE_AF_PCRMINUS" reclass); done.
Qed.

Lemma filter_info_set_flag (key : string) record :
  filter (info_set_flag key record) = filter record.
Proof. reflexivity. Qed.

(** Adding a tag other than [PASS] and [.]: the tag is set afterwards, and
the tags that were set stay unless [PASS] was the only one. *)
Lemma filter_add_elem (tag : string) record (x : string) :
  tag ≠ "." → tag ≠ "PASS" →
  x ∈ filter (filter_add tag record)
  ↔ x = tag ∨ x ∈ filter record ∧ filter record ≠ {[ "PASS" ]}.
Proof.
  intros Hdot Hpass. unfold filter_add, add_tag. cbn [set_filter filter].
  rewrite (decide_False (P := tag = ".")) by done.
  destruct (decide (tag ∈ filter record)) as [Hin|Hnot].
  - assert (filter record ≠ {[ "PASS" ]}) as Hne.
    { intros Heq. rewrite Heq in Hin. by apply elem_of_singleton in Hin. }
    split; [by right|]. by intros [->|[? _]].
  - rewrite (decide_False (P := tag = "PASS")) by done.
    destruct (decide (filter record = {[ "PASS" ]})) as [Heq|Hne].
    + rewrite elem_of_singleton. tauto.
    + rewrite elem_of_union, elem_of_singleton. tauto.
Qed.

(** After such a tag is added, FILTER is not the placeholder alone. *)
Lemma filter_add_not_PASS (tag : string) record :
  tag ≠ "." → tag ≠ "PASS" →
  filter (filter_add tag record) ≠ {[ "PASS" ]} ↔ True.
Proof.
  intros Hdot Hpass. split; [done|]. intros _ Heq.
  assert (tag ∈ filter (filter_add tag record)) as Hin
    by (apply filter_add_elem; [done..|by left]).
  rewrite Heq in Hin. by apply elem_of_singleton in Hin.
Qed.

(** The FILTER of the annotated record, tag by tag: the tags that the labels
call for, and the tags that were set, unless [PASS] alone was set and a tag
is added. *)
Lemma annotate_filter reclass record (tag : string) :
  tag ∈ filter (annotate reclass record)
  ↔ triggered reclass tag
    ∨ tag ∈ filter record
      ∧ ¬ (filter record = {[ "PASS" ]} ∧ adds_tag reclass).
Proof.
  unfold annotate, triggered, adds_tag.
  case_py_in "PCRPLUS_ENRICHED" reclass;
    destruct (py_in "PCRPLUS_DEPLETED" reclass);
    case_py_in "VARIABLE_ACROSS_BATCHES" reclass;
    destruct (py_in "UNSTABLE_AF_PCRPLUS" reclass);
    case_py_in "UNSTABLE_AF_PCRMINUS" reclass;
    rewrite ?filter_info_set_flag;
    rewrite ?filter_add_elem by done;
    rewrite ?filter_info_set_flag;
    rewrite ?filter_add_not_PASS by done;
    rewrite ?filter_add_elem by done;
    rewrite ?filter_info_set_flag;
    rewrite ?filter_add_not_PASS by done;
    rewrite ?filter_add_elem by done;
    naive_solver.
Qed.

(** The INFO keys that [annotate] sets. *)
Lemma annotate_info reclass record (key : string) :
  info (annotate reclass record) !! key
  = if bool_decide (key = "PCRPLUS_DEPLETED" ∨ key = "UNSTABLE_AF_PCRPLUS")
       && py_in key reclass
    then Some (VBool true) else info record !! key.
Proof.
  unfold annotate.
  destruct (py_in "PCRPLUS_ENRICHED" reclass);
    destruct (py_in "PCRPLUS_DEPLETED" reclass) eqn:Hd;
    destruct (py_in "VARIABLE_ACROSS_BATCHES" reclass);
    destruct (py_in "UNSTABLE_AF_PCRPLUS" reclass) eqn:Hu;
    destruct (py_in "UNSTABLE_AF_PCRMINUS" reclass);
    cbn [filter_add info_set_flag set_filter set_info info];
    rewrite ?lookup_insert; repeat case_decide; subst;
    rewrite ?Hd, ?Hu; try done;
    case_bool_decide; try done; destruct (py_in key reclass); naive_solver.
Qed.

Lemma reclassify_record_lookup record reclass plus_samples (s : string) :
  samples (reclassify_record record reclass plus_samples) !! s
  = (λ smp, if nulled reclass plus_samples s then null_GT smp else smp)
      <$> samples record !! s.
Proof.
  unfold reclassify_record. rewrite null_genotypes_lookup.
  by destruct (annotate_fixed reclass record) as (_ & _ & _ & _ & _ & ->).
Qed.

Lemma reclassify_record_id record reclass plus_samples :
  id (reclassify_record record reclass plus_samples) = id record.
Proof.
  unfold reclassify_record.
  destruct (null_genotypes_fixed reclass plus_samples (annotate reclass record))
    as (_ & _ & -> & _).
  by destruct (annotate_fixed reclass record) as (_ & _ & -> & _).
Qed.

Lemma record_eq record1 record2 :
  chrom record1 = chrom record2 → pos record1 = pos record2 →
  id record1 = id record2 → ref record1 = ref record2 →
  alts record1 = alts record2 → filter record1 = filter record2 →
  info record1 = info record2 →
  (∀ s, samples record1 !! s = samples record2 !! s) →
  record1 = record2.
Proof.
  destruct record1, record2; simpl. intros -> -> -> -> -> -> -> Hs.
  f_equal. by apply map_eq.
Qed.
End frame.

(** ** The record reclassifier *)

(** The FILTER of the reclassified record, tag by tag. *)
Lemma reclassify_record_filter (record : VariantRecord)
    (reclass plus_samples : list string) (tag : string) :
  tag ∈ filter (reclassify_record record reclass plus_samples)
  ↔ triggered reclass tag
    ∨ tag ∈ filter record
      ∧ ¬ (filter record = {[ "PASS" ]} ∧ adds_tag reclass).
Proof.
  unfold reclassify_record.
  destruct (null_genotypes_fixed reclass plus_samples (annotate reclass record))
    as (_ & _ & _ & _ & _ & -> & _).
  apply annotate_filter.
Qed.

(** C5, as stated, fails: the library's [add] replaces the [PASS] placeholder
    by the tag it adds.  [varP] has the FILTER [PASS]; labelled
    [VARIABLE_ACROSS_BATCHES] its FILTER becomes that tag alone, which is no
    superset of the FILTER before. *)
Lemma filter_append_only_counterexample :
  "PASS" ∈ filter varP
  ∧ filter (reclassify_record varP ["VARIABLE_ACROSS_BATCHES"] [])
    = {[ "VARIABLE_ACROSS_BATCHES" ]}
  ∧ ("PASS" ∉ filter (reclassify_record varP ["VARIABLE_ACROSS_BATCHES"] []))
  ∧ ¬ (filter varP
       ⊆ filter (reclassify_record varP ["VARIABLE_ACROSS_BATCHES"] [])).
Proof.
  assert (filter (reclassify_record varP ["VARIABLE_ACROSS_BATCHES"] [])
          = {[ "VARIABLE_ACROSS_BATCHES" ]}) as Hafter.
  { apply set_eq. intros tag. rewrite reclassify_record_filter.
    unfold triggered, adds_tag, varP. cbn [filter].
    rewrite !elem_of_singleton, !list_elem_of_singleton. split.
    - intros [[-> _]|[_ Hnot]]; [done|]. exfalso. apply Hnot.
      split; [done|]. right. by left.
    - intros ->. left. split; [done|]. right. by left. }
  assert ("PASS" ∈ filter varP) as Hbefore.
  { unfold varP. cbn [filter]. by apply elem_of_singleton. }
  assert ("PASS" ∉ filter (reclassify_record varP ["VARIABLE_ACROSS_BATCHES"] []))
    as Hgone.
  { rewrite Hafter. by intros ?%elem_of_singleton. }
  split; [done|]. split; [done|]. split; [done|].
  intros Hsub. apply Hgone. by apply Hsub.
Qed.

(** C5, amended.  Every tag of the record's FILTER other than the [PASS]
    placeholder is still in it after [reclassify_record], whatever the
    labels and the roster, and so is [PASS] unless it was the only entry and
    the labels add a tag; when FILTER was not [PASS] alone the FILTER after
    is a superset of the FILTER before.  Every FILTER tag that the labels
    call for is set afterwards, and a tag that was not there before is one
    of the three FILTER labels and is among the record's labels. *)
Theorem filter_keeps_tags_except_PASS (record : VariantRecord)
    (reclass plus_samples : list string) :
  let record' := reclassify_record record reclass plus_samples in
  (∀ tag, tag ∈ filter record → tag ≠ "PASS" → tag ∈ filter record')
  ∧ ("PASS" ∈ filter record →
       ("PASS" ∈ filter record'
        ↔ ¬ (filter record = {[ "PASS" ]} ∧ adds_tag reclass)))
  ∧ (filter record ≠ {[ "PASS" ]} → filter record ⊆ filter record')
  ∧ (∀ tag, triggered reclass tag → tag ∈ filter record')
  ∧ (∀ tag, tag ∈ filter record' →
       tag ∈ filter record
       ∨ tag ∈ reclass
         ∧ (tag = "PCRPLUS_ENRICHED" ∨ tag = "VARIABLE_ACROSS_BATCHES"
            ∨ tag = "UNSTABLE_AF_PCRMINUS")).
Proof.
  intros record'. subst record'. repeat split.
  - intros tag Htag Hpass. apply reclassify_record_filter. right.
    split; [done|]. intros [Heq _]. rewrite Heq in Htag.
    by apply elem_of_singleton in Htag.
  - intros Hafter%reclassify_record_filter.
    destruct Hafter as [[_ Htag]|[_ Hnot]]; [|done].
    by destruct Htag as [?|[?|?]].
  - intros Hnot. apply reclassify_record_filter. by right.
  - intros Hne tag Htag. apply reclassify_record_filter. right.
    split; [done|]. by intros [? _].
  - intros tag Htag. apply reclassify_record_filter. by left.
  - intros tag Htag%reclassify_record_filter.
    destruct Htag as [Htag|[Htag _]]; [by right|by left].
Qed.

(** A run of the amended C5: on [varA], whose FILTER is not [PASS], the
    FILTER grows; on [varP] the new tag is set. *)
Lemma filter_keeps_tags_except_PASS_witness :
  filter varA ⊆ filter (reclassify_record varA ["PCRPLUS_ENRICHED"] [])
  ∧ "VARIABLE_ACROSS_BATCHES"
    ∈ filter (reclassify_record varP ["VARIABLE_ACROSS_BATCHES"] []).
Proof.
  split.
  - apply (filter_keeps_tags_except_PASS varA ["PCRPLUS_ENRICHED"] []).
    apply (bool_decide_unpack _). vm_compute. exact I.
  - apply (filter_keeps_tags_except_PASS varP ["VARIABLE_ACROSS_BATCHES"] []).
    split; [apply list_elem_of_here|]. right. by left.
Defined.


(** C9. [reclassify_record] changes at most the FILTER set, the INFO keys
    [PCRPLUS_DEPLETED] and [UNSTABLE_AF_PCRPLUS], and the [GT] field of
    samples: chromosome, position, identifier, alleles, every other INFO key,
    the set of samples and every other field of every sample are as
    before. *)
Theorem reclassify_record_frame (record : VariantRecord)
    (reclass plus_samples : list string) :
  let record' := reclassify_record record reclass plus_samples in
  chrom record' = chrom record ∧ pos record' = pos record
  ∧ id record' = id record ∧ ref record' = ref record
  ∧ alts record' = alts record
  ∧ (∀ key, key ≠ "PCRPLUS_DEPLETED" → key ≠ "UNSTABLE_AF_PCRPLUS" →
       info record' !! key = info record !! key)
  ∧ dom (samples record') = dom (samples record)
  ∧ (∀ s smp, samples record !! s = Some smp →
       ∃ smp', samples record' !! s = Some smp'
               ∧ ∀ field, field ≠ "GT" → smp' !! field = smp !! field).
Proof.
  intros record'. subst record'. unfold reclassify_record.
  pose proof (null_genotypes_fixed reclass plus_samples (annotate reclass record))
    as (-> & -> & -> & -> & -> & _ & ->).
  pose proof (annotate_fixed reclass record) as (-> & -> & -> & -> & -> & _).
  repeat split; try done.
  - intros key Hd Hu. rewrite annotate_info.
    rewrite bool_decide_eq_false_2; [done|]. by intros [?|?].
  - apply set_eq. intros s. rewrite !elem_of_dom.
    fold (reclassify_record record reclass plus_samples).
    rewrite reclassify_record_lookup. by rewrite fmap_is_Some.
  - intros s smp Hs. fold (reclassify_record record reclass plus_samples).
    rewrite reclassify_record_lookup, Hs. cbn [fmap option_fmap option_map].
    eexists. split; [done|]. intros field Hf.
    destruct (nulled reclass plus_samples s); [|done].
    by apply null_GT_lookup_ne.
Qed.

(** C2. With the empty roster of line 131: when the labels contain
    [PCRPLUS_ENRICHED] or [UNSTABLE_AF_PCRPLUS], the genotype of every sample
    of the record becomes [(None, None)]; when every label is
    [PCRPLUS_DEPLETED] or [UNSTABLE_AF_PCRMINUS], the samples are as before,
    and the INFO flag [PCRPLUS_DEPLETED] and the FILTER tag
    [UNSTABLE_AF_PCRMINUS] are attached for the labels that are present. *)
Theorem deployed_roster_nulling (record : VariantRecord) (reclass : list string) :
  let record' := reclassify_record record reclass [] in
  ("PCRPLUS_ENRICHED" ∈ reclass ∨ "UNSTABLE_AF_PCRPLUS" ∈ reclass →
     ∀ s smp, samples record !! s = Some smp →
       ∃ smp', samples record' !! s = Some smp'
               ∧ smp' !! "GT" = Some (VTuple [None; None]))
  ∧ ((∀ label, label ∈ reclass →
        label = "PCRPLUS_DEPLETED" ∨ label = "UNSTABLE_AF_PCRMINUS") →
     samples record' = samples record
     ∧ ("PCRPLUS_DEPLETED" ∈ reclass →
          info record' !! "PCRPLUS_DEPLETED" = Some (VBool true))
     ∧ ("UNSTABLE_AF_PCRMINUS" ∈ reclass →
          "UNSTABLE_AF_PCRMINUS" ∈ filter record')).
Proof.
  intros record'. subst record'. split.
  - intros Hlabel s smp Hs. rewrite reclassify_record_lookup, Hs.
    cbn [fmap option_fmap option_map]. eexists. split; [done|].
    assert (nulled reclass [] s = true) as ->; [|apply null_GT_lookup].
    unfold nulled. rewrite py_in_nil. cbn [negb].
    rewrite andb_true_r, andb_false_r, orb_false_r.
    apply orb_true_iff. rewrite !py_in_true. done.
  - intros Honly. split; [|split].
    + apply map_eq. intros s. rewrite reclassify_record_lookup.
      assert (nulled reclass [] s = false) as ->.
      { unfold nulled. rewrite py_in_nil. cbn [negb].
        rewrite andb_true_r, andb_false_r, orb_false_r.
        apply orb_false_iff. rewrite !py_in_false.
        split; intros [?|?]%Honly; done. }
      by destruct (samples record !! s).
    + intros Hd. unfold reclassify_record.
      destruct (null_genotypes_fixed reclass [] (annotate reclass record))
        as (_ & _ & _ & _ & _ & _ & ->).
      rewrite annotate_info. apply py_in_true in Hd. rewrite Hd.
      rewrite bool_decide_eq_true_2; [done|by left].
    + intros Hm.
      apply reclassify_record_filter.
      left. split; [done|]. by right; right.
Qed.

(** A run of C2 on [varA]: the label [UNSTABLE_AF_PCRPLUS] nulls sample [S2],
    the label [PCRPLUS_DEPLETED] leaves the samples alone. *)
Lemma deployed_roster_nulling_witness :
  (∃ smp', samples (reclassify_record varA ["UNSTABLE_AF_PCRPLUS"] []) !! "S2"
           = Some smp'
           ∧ smp' !! "GT" = Some (VTuple [None; None]))
  ∧ samples (reclassify_record varA ["PCRPLUS_DEPLETED"] []) = samples varA.
Proof.
  split.
  - apply (proj1 (deployed_roster_nulling varA ["UNSTABLE_AF_PCRPLUS"]))
      with (smp := call [Some 1%Z; Some 1%Z]).
    + right. apply list_elem_of_here.
    + vm_compute. reflexivity.
  - apply (proj2 (deployed_roster_nulling varA ["PCRPLUS_DEPLETED"])).
    intros label Hlabel. apply list_elem_of_singleton in Hlabel. by left.
Defined.



(** ** The emission filter *)

Section emission.
Implicit Types (record : VariantRecord) (header_samples : list string).

Lemma emit_loop_cons (s : string) header_samples record fout smp gt :
  samples record !! s = Some smp → smp !! "GT" = Some gt →
  emit_loop (s :: header_samples) record fout
  = if bool_decide (gt ∈ NULL_GTs)
    then emit_loop header_samples record fout
    else (fout ++ [record], Ok tt).
Proof.
  intros Hs Hgt. cbn [emit_loop]. unfold mbind, M_bind, getitem.
  rewrite Hs. unfold mret, M_ret. rewrite Hgt.
  by destruct (bool_decide (gt ∈ NULL_GTs)).
Qed.

(** The loop writes the record or nothing, and an exception comes before
    any write. *)
Lemma emit_loop_out header_samples record fout out res :
  emit_loop header_samples record fout = (out, res) →
  out = fout ∨ out = fout ++ [record] ∧ res = Ok tt.
Proof.
  revert fout. induction header_samples as [|s hs IH]; intros fout.
  - cbn. intros [= <- <-]. by left.
  - cbn [emit_loop]. unfold mbind, M_bind, getitem.
    destruct (samples record !! s) as [smp|]; [|intros [= <- <-]; by left].
    unfold mret, M_ret. destruct (smp !! "GT") as [gt|];
      [|unfold raise; intros [= <- <-]; by left].
    destruct (bool_decide (gt ∈ NULL_GTs)); cbn [negb].
    + apply IH.
    + unfold write. intros [= <- <-]. by right.
Qed.

Lemma emit_loop_spec header_samples record fout :
  (∀ s, s ∈ header_samples → is_Some (genotype record s)) →
  emit_loop header_samples record fout
  = (if existsb (informative record) header_samples
     then fout ++ [record] else fout, Ok tt).
Proof.
  induction header_samples as [|s hs IH]; intros Hgt; [done|].
  destruct (Hgt s) as [gt Hs]; [apply list_elem_of_here|].
  unfold genotype in Hs. destruct (samples record !! s) as [smp|] eqn:Hsmp;
    [|done]. cbn in Hs.
  rewrite (emit_loop_cons _ _ _ _ _ _ Hsmp Hs). cbn [existsb].
  unfold informative at 1, genotype. rewrite Hsmp. cbn. rewrite Hs.
  destruct (bool_decide (gt ∈ NULL_GTs)); cbn [negb orb]; [|done].
  apply IH. intros s' Hs'. apply Hgt. by apply list_elem_of_further.
Qed.

Lemma existsb_informative header_samples record :
  existsb (informative record) header_samples = true
  ↔ ∃ s gt, s ∈ header_samples ∧ genotype record s = Some gt ∧ gt ∉ NULL_GTs.
Proof.
  rewrite existsb_exists. split.
  - intros (s & Hin%list_elem_of_In & Hinf). unfold informative in Hinf.
    destruct (genotype record s) as [gt|] eqn:Hgt; [|done].
    exists s, gt. split; [done|]. split; [done|].
    apply negb_true_iff in Hinf. by apply bool_decide_eq_false in Hinf.
  - intros (s & gt & Hin & Hgt & Hnull). exists s.
    split; [by apply list_elem_of_In|]. unfold informative. rewrite Hgt.
    apply negb_true_iff. by apply bool_decide_eq_false.
Qed.

Lemma genotype_is_Some header_samples record :
  well_formed header_samples record →
  ∀ s, s ∈ header_samples → is_Some (genotype record s).
Proof.
  intros [Hdom Hgt] s [smp Hsmp]%Hdom. unfold genotype. rewrite Hsmp. cbn.
  by eapply Hgt.
Qed.

Lemma genotype_header header_samples record (s : string) gt :
  well_formed header_samples record →
  genotype record s = Some gt → s ∈ header_samples.
Proof.
  intros [Hdom _] Hgt. apply Hdom. unfold genotype in Hgt.
  by destruct (samples record !! s).
Qed.

Lemma reclassify_record_well_formed header_samples record
    (reclass plus_samples : list string) :
  well_formed header_samples record →
  well_formed header_samples (reclassify_record record reclass plus_samples).
Proof.
  intros [Hdom Hgt]. split.
  - intros s. rewrite reclassify_record_lookup, fmap_is_Some. apply Hdom.
  - intros s smp'. rewrite reclassify_record_lookup.
    destruct (samples record !! s) as [smp|] eqn:Hs; [|done].
    cbn. intros [= <-]. destruct (nulled reclass plus_samples s).
    + rewrite null_GT_lookup. by eexists.
    + by eapply Hgt.
Qed.

Lemma process_record_reclassified header_samples
    (reclass_table : gmap string (list string)) (plus_samples : list string)
    record (reclass : list string) fout :
  well_formed header_samples record →
  table_get reclass_table (id record) = Some reclass →
  let newrecord := reclassify_record record reclass plus_samples in
  process_record header_samples reclass_table plus_samples record fout
  = (if existsb (informative newrecord) header_samples
     then fout ++ [newrecord] else fout, Ok tt).
Proof.
  intros Hwf Hget newrecord. unfold process_record. rewrite Hget.
  apply emit_loop_spec. eapply genotype_is_Some.
  by apply reclassify_record_well_formed.
Qed.
End emission.

Lemma well_formedb_correct (header_samples : list string) (record : VariantRecord) :
  well_formedb header_samples record = true → well_formed header_samples record.
Proof.
  unfold well_formedb. intros [Hdom Hgt]%andb_true_iff.
  apply bool_decide_eq_true in Hdom. split.
  - intros s. rewrite <- elem_of_dom, <- Hdom. by rewrite elem_of_list_to_set.
  - intros s smp Hs. rewrite forallb_forall in Hgt.
    apply elem_of_map_to_list, list_elem_of_In in Hs.
    apply Hgt in Hs. by apply bool_decide_eq_true in Hs.
Qed.

Lemma well_formed_varA : well_formed ["S1"; "S2"; "S3"] varA.
Proof. apply well_formedb_correct. vm_compute. reflexivity. Qed.

Lemma well_formed_varH : well_formed ["S1"] varH.
Proof. apply well_formedb_correct. vm_compute. reflexivity. Qed.

Lemma well_formed_varN : well_formed [] varN.
Proof. apply well_formedb_correct. vm_compute. reflexivity. Qed.

(** C1, as stated, fails: the null set of line 140 has a fifth shape, the
    haploid reference call [(0,)].  [varH] is a well-formed row with a table
    entry whose only genotype is [(0,)], outside of the four shapes, and it is
    not written. *)
Lemma emission_four_shapes_counterexample :
  well_formed ["S1"] varH
  ∧ table_get {[ "varH" := ["VARIABLE_ACROSS_BATCHES"] ]} (id varH)
    = Some ["VARIABLE_ACROSS_BATCHES"]
  ∧ genotype (reclassify_record varH ["VARIABLE_ACROSS_BATCHES"] []) "S1"
    = Some (VTuple [Some 0%Z])
  ∧ (VTuple [Some 0%Z] ∉ four_shape_null_set)
  ∧ process_record ["S1"] {[ "varH" := ["VARIABLE_ACROSS_BATCHES"] ]} [] varH []
    = ([], Ok tt)
  ∧ ¬ emission_decided_by four_shape_null_set
        ["S1"] {[ "varH" := ["VARIABLE_ACROSS_BATCHES"] ]} [] varH
        ["VARIABLE_ACROSS_BATCHES"].
Proof.
  assert (VTuple [Some 0%Z] ∉ four_shape_null_set) as Hout.
  { apply (bool_decide_unpack _). by vm_compute. }
  split; [apply well_formed_varH|]. split; [by vm_compute|].
  split; [by vm_compute|]. split; [done|]. split; [by vm_compute|].
  unfold emission_decided_by. intros [_ Hemit].
  assert (emits (process_record ["S1"] {[ "varH" := ["VARIABLE_ACROSS_BATCHES"] ]}
                   [] varH)
            (reclassify_record varH ["VARIABLE_ACROSS_BATCHES"] [])) as Hrun.
  { apply Hemit. exists "S1", (VTuple [Some 0%Z]). split; [by vm_compute|done]. }
  specialize (Hrun []). vm_compute in Hrun. discriminate Hrun.
Qed.

(** C1, amended.  For a well-formed row with a table entry, the reclassified
    record is written exactly when the genotype of some sample, after
    reclassification, is outside of the five shapes of [NULL_GTs]: [(0, 0)],
    [(None, None)], [(0,)], [(None,)] and [(None, 2)]; otherwise nothing is
    written and the run goes on. *)
Theorem emission_by_null_set (header_samples : list string)
    (reclass_table : gmap string (list string)) (plus_samples : list string)
    (record : VariantRecord) (reclass : list string) :
  well_formed header_samples record →
  table_get reclass_table (id record) = Some reclass →
  emission_decided_by NULL_GTs header_samples reclass_table plus_samples
    record reclass
  ∧ (emits (process_record header_samples reclass_table plus_samples record)
       (reclassify_record record reclass plus_samples)
     ∨ drops (process_record header_samples reclass_table plus_samples record)).
Proof.
  intros Hwf Hget.
  pose proof (reclassify_record_well_formed _ _ reclass plus_samples Hwf) as Hwf'.
  pose proof (λ fout, process_record_reclassified header_samples reclass_table
                plus_samples record reclass fout Hwf Hget) as Hrun.
  cbv zeta in Hrun. unfold emission_decided_by. cbv zeta.
  destruct (existsb _ header_samples) eqn:Hex.
  - split; [|by left]. split; [|done].
    intros _. apply existsb_informative in Hex as (s & gt & _ & Hgt & Hnull).
    by exists s, gt.
  - split; [|by right]. split.
    + intros Hemit. specialize (Hemit []). rewrite Hrun in Hemit.
      by inversion Hemit.
    + intros (s & gt & Hgt & Hnull).
      assert (existsb (informative (reclassify_record record reclass plus_samples))
                header_samples = true) as Htrue; [|congruence].
      apply existsb_informative. exists s, gt. split; [|done].
      by eapply genotype_header.
Qed.

(** A run of the amended C1 on [varA]: with the label
    [VARIABLE_ACROSS_BATCHES] its genotypes stay and it is written. *)
Lemma emission_by_null_set_witness :
  emits (process_record ["S1"; "S2"; "S3"]
           {[ "varA" := ["VARIABLE_ACROSS_BATCHES"] ]} [] varA)
    (reclassify_record varA ["VARIABLE_ACROSS_BATCHES"] []).
Proof.
  destruct (emission_by_null_set ["S1"; "S2"; "S3"]
              {[ "varA" := ["VARIABLE_ACROSS_BATCHES"] ]} [] varA
              ["VARIABLE_ACROSS_BATCHES"]) as [[_ Hemit] _].
  - apply well_formed_varA.
  - vm_compute. reflexivity.
  - apply Hemit. exists "S1", (VTuple [Some 0%Z; Some 1%Z]). split.
    + vm_compute. reflexivity.
    + apply (bool_decide_unpack _). vm_compute. exact I.
Defined.

(** C10. A row with a table entry and no sample, in a VCF whose header
    declares no sample, is never written: the loop of lines 148-151 has
    nothing to run over, whatever the labels and the annotations. *)
Theorem zero_samples_dropped (header_samples : list string)
    (reclass_table : gmap string (list string)) (plus_samples : list string)
    (record : VariantRecord) (reclass : list string) :
  well_formed header_samples record →
  samples record = ∅ →
  table_get reclass_table (id record) = Some reclass →
  drops (process_record header_samples reclass_table plus_samples record)
  ∧ ¬ emits (process_record header_samples reclass_table plus_samples record)
        (reclassify_record record reclass plus_samples).
Proof.
  intros [Hdom _] Hempty Hget.
  assert (header_samples = []) as ->.
  { apply elem_of_nil_inv. intros s [smp Hs]%Hdom.
    by rewrite Hempty, lookup_empty in Hs. }
  assert (drops (process_record [] reclass_table plus_samples record)) as Hdrop.
  { intros fout. unfold process_record. by rewrite Hget. }
  split; [done|].
  intros Hemit. specialize (Hemit []). rewrite Hdrop in Hemit.
  by inversion Hemit.
Qed.

(** A run of C10 on [varN], labelled [VARIABLE_ACROSS_BATCHES]. *)
Lemma zero_samples_dropped_witness :
  drops (process_record [] {[ "varN" := ["VARIABLE_ACROSS_BATCHES"] ]} [] varN).
Proof.
  apply (zero_samples_dropped [] {[ "varN" := ["VARIABLE_ACROSS_BATCHES"] ]} []
           varN ["VARIABLE_ACROSS_BATCHES"]).
  - apply well_formed_varN.
  - reflexivity.
  - vm_compute. reflexivity.
Defined.

(** ** The classification table loader *)

Section loader.
Implicit Types (reclass_table : gmap string (list string))
  (pairs : list (string * string)) (reader : list (list string)).

Lemma add_pairs_cons (VID assignment : string) pairs reclass_table :
  add_pairs ((VID, assignment) :: pairs) reclass_table
  = add_pairs pairs (add_assignment VID assignment reclass_table).
Proof. reflexivity. Qed.

Lemma add_assignment_lookup (VID assignment v : string) reclass_table :
  add_assignment VID assignment reclass_table !! v
  = if decide (VID = v)
    then Some (default [] (reclass_table !! VID) ++ [assignment])
    else reclass_table !! v.
Proof.
  unfold add_assignment. case_py_in VID (keys reclass_table); cbn [negb].
  - apply elem_of_keys in Hin as [l Hl]. rewrite lookup_alter.
    destruct (decide (VID = v)) as [->|]; [|done]. by rewrite Hl.
  - rewrite elem_of_keys, <- eq_None_not_Some in Hin. rewrite lookup_insert.
    destruct (decide (VID = v)) as [->|]; [|done]. by rewrite Hin.
Qed.

Lemma labels_of_cons (VID assignment v : string) pairs :
  labels_of ((VID, assignment) :: pairs) v
  = if decide (VID = v) then assignment :: labels_of pairs v
    else labels_of pairs v.
Proof.
  unfold labels_of. rewrite filter_cons. cbn [fst].
  by destruct (decide (VID = v)).
Qed.

Lemma labels_of_app pairs1 pairs2 (v : string) :
  labels_of (pairs1 ++ pairs2) v = labels_of pairs1 v ++ labels_of pairs2 v.
Proof. unfold labels_of. by rewrite filter_app, fmap_app. Qed.

Lemma add_pairs_no_empty_entry pairs reclass_table :
  no_empty_entry reclass_table → no_empty_entry (add_pairs pairs reclass_table).
Proof.
  revert reclass_table. induction pairs as [|[VID a] pairs IH];
    intros reclass_table Hinv; [done|].
  rewrite add_pairs_cons. apply IH. intros v. rewrite add_assignment_lookup.
  destruct (decide (VID = v)); [|apply Hinv].
  intros [= Hnil]. by apply app_nil in Hnil as [_ ?].
Qed.

Lemma add_pairs_labels pairs reclass_table (v : string) :
  default [] (add_pairs pairs reclass_table !! v)
  = default [] (reclass_table !! v) ++ labels_of pairs v.
Proof.
  revert reclass_table. induction pairs as [|[VID a] pairs IH];
    intros reclass_table.
  - cbn. by rewrite app_nil_r.
  - rewrite add_pairs_cons, IH, add_assignment_lookup, labels_of_cons.
    destruct (decide (VID = v)) as [->|]; [|done].
    unfold default. cbn [from_option]. unfold Datatypes.id.
    by rewrite <- app_assoc.
Qed.

Lemma add_pairs_lookup pairs (v : string) :
  add_pairs pairs ∅ !! v = entry (labels_of pairs v).
Proof.
  pose proof (add_pairs_labels pairs ∅ v) as Hlab.
  pose proof (add_pairs_no_empty_entry pairs ∅) as Hinv.
  rewrite lookup_empty in Hlab. cbn in Hlab. rewrite <- Hlab.
  destruct (add_pairs pairs ∅ !! v) as [[|a l]|] eqn:Hv; try done.
  exfalso. apply (Hinv (λ v', ltac:(by rewrite lookup_empty)) v Hv).
Qed.

Lemma add_pairs_app pairs1 pairs2 reclass_table :
  add_pairs (pairs1 ++ pairs2) reclass_table
  = add_pairs pairs2 (add_pairs pairs1 reclass_table).
Proof. apply foldl_app. Qed.

Lemma add_vid_list_pairs (assignment : string) (lines : option (list string))
    reclass_table :
  add_vid_list assignment lines reclass_table
  = add_pairs (list_pairs assignment lines) reclass_table.
Proof.
  unfold add_vid_list, list_pairs, add_pairs. destruct lines as [lines|]; [|done].
  cbn [default]. revert reclass_table.
  induction lines as [|line lines IH]; intros reclass_table; [done|].
  cbn. apply IH.
Qed.

(** Reading the rows writes nothing; it ends with the table when every row
    has two fields, and with [ValueError] otherwise. *)
Lemma read_table_ok reader reclass_table fout :
  Forall (λ row, length row = 2) reader →
  read_table reader reclass_table fout
  = (fout, Ok (add_pairs (row_pairs reader) reclass_table)).
Proof.
  intros Hrows. revert reclass_table.
  induction Hrows as [|row reader Hrow _ IH]; intros reclass_table; [done|].
  destruct row as [|VID [|a [|]]]; try done. cbn. apply IH.
Qed.

Lemma read_table_bad reader reclass_table fout :
  Exists (λ row, length row ≠ 2) reader →
  read_table reader reclass_table fout = (fout, Raise ValueError).
Proof.
  intros Hrows. revert reclass_table.
  induction Hrows as [row reader Hrow|row reader _ IH]; intros reclass_table.
  - by destruct row as [|VID [|a [|]]].
  - destruct row as [|VID [|a [|]]]; try done. cbn. apply IH.
Qed.

Lemma load_table_ok reader (plus_lines minus_lines : option (list string)) fout :
  Forall (λ row, length row = 2) reader →
  load_table reader plus_lines minus_lines fout
  = (fout, Ok (add_pairs (all_pairs reader plus_lines minus_lines) ∅)).
Proof.
  intros Hrows. unfold load_table, mbind, M_bind.
  rewrite read_table_ok by done. unfold mret, M_ret.
  by rewrite !add_vid_list_pairs, <- !add_pairs_app.
Qed.

Lemma load_table_bad reader (plus_lines minus_lines : option (list string)) fout :
  Exists (λ row, length row ≠ 2) reader →
  load_table reader plus_lines minus_lines fout = (fout, Raise ValueError).
Proof.
  intros Hrows. unfold load_table, mbind, M_bind.
  by rewrite read_table_bad.
Qed.
End loader.

Lemma labels_of_list_pairs (assignment : string) (lines : option (list string))
    (v : string) :
  labels_of (list_pairs assignment lines) v
  = replicate (occurrences v (listed lines)) assignment.
Proof.
  unfold list_pairs, listed, occurrences.
  induction (default [] lines) as [|line lines' IH]; [done|].
  rewrite !fmap_cons, labels_of_cons, filter_cons.
  destruct (decide (rstrip_newline line = v)); cbn; by rewrite IH.
Qed.

Lemma labels_of_absent (pairs : list (string * string)) (v : string) :
  v ∉ pairs.*1 → labels_of pairs v = [].
Proof.
  induction pairs as [|[VID a] pairs IH]; [done|].
  rewrite fmap_cons, not_elem_of_cons, labels_of_cons. cbn. intros [Hne Hnot].
  destruct (decide (VID = v)); [congruence|by apply IH].
Qed.

Lemma occurrences_absent (v : string) (vids : list string) :
  v ∉ vids → occurrences v vids = 0.
Proof.
  unfold occurrences. induction vids as [|x vids IH]; [done|].
  rewrite not_elem_of_cons, filter_cons. intros [Hne Hnot].
  destruct (decide (x = v)); [congruence|by apply IH].
Qed.

(** The merged table, entry by entry. *)
Lemma merged_table_lookup (reader : list (list string))
    (plus_lines minus_lines : option (list string)) (v : string) :
  add_pairs (all_pairs reader plus_lines minus_lines) ∅ !! v
  = entry (merged_labels reader plus_lines minus_lines v).
Proof.
  rewrite add_pairs_lookup. unfold all_pairs, merged_labels.
  by rewrite !labels_of_app, !labels_of_list_pairs.
Qed.

(** C7, as stated, fails: a VID absent from the main table and listed in
    both list files gets the two labels, not [UNSTABLE_AF_PCRPLUS] alone. *)
Lemma single_label_counterexample :
  let reader := [["varA"; "PCRPLUS_ENRICHED"]] in
  let plus_lines := Some ["varC" +:+ LF] in
  let minus_lines := Some ["varB" +:+ LF; "varC" +:+ LF] in
  "varC" ∈ listed plus_lines
  ∧ ("varC" ∉ (row_pairs reader).*1)
  ∧ ∃ reclass_table,
      load_table reader plus_lines minus_lines [] = ([], Ok reclass_table)
      ∧ reclass_table !! "varC"
        = Some ["UNSTABLE_AF_PCRPLUS"; "UNSTABLE_AF_PCRMINUS"]
      ∧ reclass_table !! "varC" ≠ Some ["UNSTABLE_AF_PCRPLUS"].
Proof.
  cbv zeta. split; [apply (bool_decide_unpack _); by vm_compute|].
  split; [apply (bool_decide_unpack _); by vm_compute|].
  eexists. split; [vm_compute; reflexivity|].
  split; [by vm_compute|]. by vm_compute.
Qed.

(** C7, amended.  When every row of the main table has two fields, the loader
    ends with a table and writes nothing.  The entry of a VID holds its
    labels of the main table in order, then [UNSTABLE_AF_PCRPLUS] once for
    each time the first list names it, then [UNSTABLE_AF_PCRMINUS] once for
    each time the second list names it, with no repetition removed; a VID
    with none of these has no entry.  So a VID that the first list names
    once, and that neither the main table nor the second list name, has the
    single label [UNSTABLE_AF_PCRPLUS]. *)
Theorem supplemental_list_merge (reclassifications : list (list string))
    (unstable_af_pcrplus unstable_af_pcrminus : option (list string)) :
  Forall (λ row, length row = 2) reclassifications →
  ∃ reclass_table,
    (∀ fout, load_table reclassifications unstable_af_pcrplus
               unstable_af_pcrminus fout = (fout, Ok reclass_table))
    ∧ (∀ v, reclass_table !! v
            = entry (merged_labels reclassifications unstable_af_pcrplus
                       unstable_af_pcrminus v))
    ∧ (∀ v, v ∉ (row_pairs reclassifications).*1 →
            occurrences v (listed unstable_af_pcrplus) = 1 →
            v ∉ listed unstable_af_pcrminus →
            reclass_table !! v = Some ["UNSTABLE_AF_PCRPLUS"]).
Proof.
  intros Hrows. eexists. split; [|split].
  - intros fout. by apply load_table_ok.
  - intros v. apply merged_table_lookup.
  - intros v Hmain Hplus Hminus. rewrite merged_table_lookup.
    unfold merged_labels.
    by rewrite (labels_of_absent _ _ Hmain), Hplus,
      (occurrences_absent _ _ Hminus).
Qed.

(** A run of the amended C7: [varC] is named once by the first list only. *)
Lemma supplemental_list_merge_witness :
  ∃ reclass_table,
    load_table [["varA"; "PCRPLUS_ENRICHED"]] (Some ["varC" +:+ LF])
      (Some ["varB" +:+ LF]) [] = ([], Ok reclass_table)
    ∧ reclass_table !! "varC" = Some ["UNSTABLE_AF_PCRPLUS"].
Proof.
  destruct (supplemental_list_merge [["varA"; "PCRPLUS_ENRICHED"]]
              (Some ["varC" +:+ LF]) (Some ["varB" +:+ LF]))
    as (reclass_table & Hload & _ & Hsingle).
  - repeat constructor.
  - exists reclass_table. split; [apply Hload|]. apply Hsingle.
    + apply (bool_decide_unpack _). vm_compute. exact I.
    + vm_compute. reflexivity.
    + apply (bool_decide_unpack _). vm_compute. exact I.
Defined.

(** C8. A row of the classification table that has not exactly two fields
    stops the run with [ValueError] before any record is written: the rows
    before it are not kept and no row is skipped. *)
Theorem malformed_row_aborts (vcf : VariantFile)
    (reclassifications : list (list string))
    (unstable_af_pcrplus unstable_af_pcrminus : option (list string)) :
  Exists (λ row, length row ≠ 2) reclassifications →
  run_main vcf reclassifications unstable_af_pcrplus unstable_af_pcrminus
  = ([], Raise ValueError).
Proof.
  intros Hrows. unfold run_main, main, mbind, M_bind.
  by rewrite load_table_bad.
Qed.

(** A run of C8: the second row of the table has three fields. *)
Lemma malformed_row_aborts_witness :
  run_main (mkVariantFile ["S1"; "S2"; "S3"] [varN; varA])
    [["varA"; "PCRPLUS_ENRICHED"]; ["varB"; "PCRPLUS_DEPLETED"; "x"]] None None
  = ([], Raise ValueError).
Proof.
  apply malformed_row_aborts. apply Exists_cons_tl, Exists_cons_hd.
  cbn. lia.
Defined.

(** ** The record loop *)

(** Over a run of the loop that ends normally, the records without a table
    entry go to the output as they are and in their order, and nothing else
    without an entry is written. *)
Lemma for_each_pass_through (header_samples : list string)
    (reclass_table : gmap string (list string)) (plus_samples : list string)
    (rs fout out : list VariantRecord) :
  for_each (process_record header_samples reclass_table plus_samples) rs fout
  = (out, Ok tt) →
  base.filter (no_entry reclass_table) out
  = base.filter (no_entry reclass_table) fout
    ++ base.filter (no_entry reclass_table) rs.
Proof.
  revert fout. induction rs as [|record rs IH]; intros fout.
  - cbn. intros [= <-]. by rewrite app_nil_r.
  - cbn [for_each]. unfold mbind, M_bind.
    destruct (process_record _ _ _ record fout) as [fout' [[]|e]] eqn:Hstep;
      [|done].
    intros Hrest. rewrite (IH _ Hrest). unfold process_record in Hstep.
    destruct (table_get reclass_table (id record)) as [reclass|] eqn:Hget.
    + rewrite (filter_cons_False _ record) by (unfold no_entry; congruence).
      f_equal. apply emit_loop_out in Hstep as [->|[-> _]]; [done|].
      rewrite filter_app, filter_cons_False, filter_nil, app_nil_r; [done|].
      unfold no_entry. rewrite reclassify_record_id. congruence.
    + unfold write in Hstep. injection Hstep as <-.
      rewrite filter_app, !(filter_cons_True _ record) by done.
      by rewrite filter_nil, <- app_assoc.
Qed.

(** C4. A record whose VID has no entry in the merged table is written as it
    is: the record written is the input record, so its FILTER, its INFO and
    the genotypes of all its samples are those of the input.  Over a whole
    run that ends normally, the output records without an entry are the input
    records without an entry, in their order. *)
Theorem pass_through_unchanged :
  (∀ (header_samples : list string) (reclass_table : gmap string (list string))
     (plus_samples : list string) (record : VariantRecord),
     table_get reclass_table (id record) = None →
     emits (process_record header_samples reclass_table plus_samples record)
       record)
  ∧ (∀ (vcf : VariantFile) (reclassifications : list (list string))
       (unstable_af_pcrplus unstable_af_pcrminus : option (list string))
       (reclass_table : gmap string (list string)) (out : list VariantRecord),
       load_table reclassifications unstable_af_pcrplus unstable_af_pcrminus []
       = ([], Ok reclass_table) →
       run_main vcf reclassifications unstable_af_pcrplus unstable_af_pcrminus
       = (out, Ok tt) →
       base.filter (no_entry reclass_table) out
       = base.filter (no_entry reclass_table) (records vcf)).
Proof.
  split.
  - intros header_samples reclass_table plus_samples record Hget fout.
    unfold process_record. by rewrite Hget.
  - intros vcf reader plus_lines minus_lines reclass_table out Hload.
    unfold run_main, main, mbind, M_bind. rewrite Hload.
    intros Hrun. by rewrite (for_each_pass_through _ _ _ _ _ _ Hrun).
Qed.

(** A run of C4: [varN] has no entry in a table that holds [varA] only, and
    is the one record written; [varA], labelled [PCRPLUS_ENRICHED], is
    dropped. *)
Lemma pass_through_unchanged_witness :
  process_record ["S1"; "S2"; "S3"] {[ "varA" := ["PCRPLUS_ENRICHED"] ]} []
    varN [] = ([varN], Ok tt)
  ∧ base.filter (no_entry {[ "varA" := ["PCRPLUS_ENRICHED"] ]}) [varN]
    = base.filter (no_entry {[ "varA" := ["PCRPLUS_ENRICHED"] ]}) [varN; varA].
Proof.
  split.
  - apply (proj1 pass_through_unchanged ["S1"; "S2"; "S3"]
             {[ "varA" := ["PCRPLUS_ENRICHED"] ]} [] varN).
    vm_compute. reflexivity.
  - apply (proj2 pass_through_unchanged
             (mkVariantFile ["S1"; "S2"; "S3"] [varN; varA])
             [["varA"; "PCRPLUS_ENRICHED"]] None None).
    + vm_compute. reflexivity.
    + vm_compute. reflexivity.
Defined.

(** ** Two runs of the whole script *)

(** The table labels [varA] as [PCRPLUS_ENRICHED] and the roster is empty:
    the three genotypes of [varA] are nulled and the record is not written. *)
Example run_enriched_dropped :
  run_main (mkVariantFile ["S1"; "S2"; "S3"] [varA])
    [["varA"; "PCRPLUS_ENRICHED"]] None None
  = ([], Ok tt)
  ∧ "PCRPLUS_ENRICHED" ∈ filter (reclassify_record varA ["PCRPLUS_ENRICHED"] [])
  ∧ ∀ s, s ∈ ["S1"; "S2"; "S3"] →
      genotype (reclassify_record varA ["PCRPLUS_ENRICHED"] []) s
      = Some (VTuple [None; None]).
Proof.
  split; [by vm_compute|]. split.
  - apply reclassify_record_filter. left. split; [apply list_elem_of_here|by left].
  - intros s Hs. repeat (apply elem_of_cons in Hs as [->|Hs]; [by vm_compute|]).
    by apply elem_of_nil in Hs.
Qed.

(** The table labels [varA] as [VARIABLE_ACROSS_BATCHES] only: the record is
    written with the new FILTER tag and the samples it had. *)
Example run_variable_emitted :
  run_main (mkVariantFile ["S1"; "S2"; "S3"] [varA])
    [["varA"; "VARIABLE_ACROSS_BATCHES"]] None None
  = ([filter_add "VARIABLE_ACROSS_BATCHES" varA], Ok tt)
  ∧ samples (filter_add "VARIABLE_ACROSS_BATCHES" varA) = samples varA.
Proof. split; [by vm_compute|done]. Qed.

(** * Further properties of the script *)

(** ** More on [reclassify_record] *)

Lemma reclassify_record_origin (record : VariantRecord)
    (reclass plus_samples : list string) :
  origin (reclassify_record record reclass plus_samples) = origin record.
Proof.
  unfold origin, reclassify_record.
  destruct (null_genotypes_fixed reclass plus_samples (annotate reclass record))
    as (-> & -> & -> & -> & -> & _).
  by destruct (annotate_fixed reclass record) as (-> & -> & -> & -> & -> & _).
Qed.

(** The INFO of the reclassified record, key by key. *)
Lemma reclassify_record_info (record : VariantRecord)
    (reclass plus_samples : list string) (key : string) :
  info (reclassify_record record reclass plus_samples) !! key
  = if bool_decide (key = "PCRPLUS_DEPLETED" ∨ key = "UNSTABLE_AF_PCRPLUS")
       && py_in key reclass
    then Some (VBool true) else info record !! key.
Proof.
  unfold reclassify_record.
  destruct (null_genotypes_fixed reclass plus_samples (annotate reclass record))
    as (_ & _ & _ & _ & _ & _ & ->).
  apply annotate_info.
Qed.

Lemma record_eq_origin (record1 record2 : VariantRecord) :
  origin record1 = origin record2 → filter record1 = filter record2 →
  info record1 = info record2 →
  (∀ s, samples record1 !! s = samples record2 !! s) →
  record1 = record2.
Proof.
  unfold origin. intros [= ? ? ? ? ?] ? ? ?. by apply record_eq.
Qed.

(** When the labels add a tag, the FILTER afterwards is not the placeholder
    alone. *)
Lemma reclassify_record_filter_not_PASS (record : VariantRecord)
    (reclass plus_samples : list string) :
  adds_tag reclass →
  filter (reclassify_record record reclass plus_samples) ≠ {[ "PASS" ]}.
Proof.
  intros Hadds Heq.
  assert (∃ tag, triggered reclass tag) as [tag Htag].
  { unfold triggered. destruct Hadds as [?|[?|?]]; eexists; split; eauto. }
  assert (tag ∈ filter (reclassify_record record reclass plus_samples)) as Hin
    by (apply reclassify_record_filter; by left).
  rewrite Heq in Hin. apply elem_of_singleton in Hin as ->.
  destruct Htag as [_ [?|[?|?]]]; done.
Qed.

(** X1. Reclassifying a reclassified record again, with the same labels and
    roster, changes nothing. *)
Theorem reclassify_record_idempotent (record : VariantRecord)
    (reclass plus_samples : list string) :
  reclassify_record (reclassify_record record reclass plus_samples)
    reclass plus_samples
  = reclassify_record record reclass plus_samples.
Proof.
  apply record_eq_origin.
  - apply reclassify_record_origin.
  - apply set_eq. intros tag.
    rewrite (reclassify_record_filter (reclassify_record _ _ _)). split.
    + intros [Htag|[Htag _]]; [|done]. apply reclassify_record_filter. by left.
    + intros Htag. right. split; [done|]. intros [Heq Hadds].
      by apply (reclassify_record_filter_not_PASS record reclass plus_samples).
  - apply map_eq. intros key. rewrite !reclassify_record_info.
    by destruct (_ && _).
  - intros s. rewrite !reclassify_record_lookup.
    destruct (samples record !! s) as [smp|]; [|done].
    cbn [fmap option_fmap option_map].
    destruct (nulled reclass plus_samples s); [|done].
    by rewrite null_GT_idemp.
Qed.

Lemma py_in_agree (x : string) (l1 l2 : list string) :
  (x ∈ l1 ↔ x ∈ l2) → py_in x l1 = py_in x l2.
Proof. intros Hiff. unfold py_in. by apply bool_decide_ext. Qed.

(** X2. The result depends on the labels only through which of the five
    recognised labels are present, and on the roster only through which of
    the record's samples it holds: order, repetitions, other labels and
    other roster names make no difference. *)
Theorem reclassify_record_membership (record : VariantRecord)
    (reclass1 reclass2 plus_samples1 plus_samples2 : list string) :
  Forall (λ label, label ∈ reclass1 ↔ label ∈ reclass2) recognised →
  Forall (λ s, s ∈ plus_samples1 ↔ s ∈ plus_samples2) (keys (samples record)) →
  reclassify_record record reclass1 plus_samples1
  = reclassify_record record reclass2 plus_samples2.
Proof.
  intros Hlabels Hroster.
  assert (∀ label, label ∈ recognised →
            py_in label reclass1 = py_in label reclass2) as Hin.
  { intros label Hl. apply py_in_agree. by eapply Forall_forall in Hlabels. }
  assert (py_in "PCRPLUS_ENRICHED" reclass1 = py_in "PCRPLUS_ENRICHED" reclass2)
    as He by (apply Hin; unfold recognised; set_solver).
  assert (py_in "PCRPLUS_DEPLETED" reclass1 = py_in "PCRPLUS_DEPLETED" reclass2)
    as Hd by (apply Hin; unfold recognised; set_solver).
  assert (py_in "VARIABLE_ACROSS_BATCHES" reclass1
          = py_in "VARIABLE_ACROSS_BATCHES" reclass2)
    as Hv by (apply Hin; unfold recognised; set_solver).
  assert (py_in "UNSTABLE_AF_PCRPLUS" reclass1
          = py_in "UNSTABLE_AF_PCRPLUS" reclass2)
    as Hu by (apply Hin; unfold recognised; set_solver).
  assert (py_in "UNSTABLE_AF_PCRMINUS" reclass1
          = py_in "UNSTABLE_AF_PCRMINUS" reclass2)
    as Hm by (apply Hin; unfold recognised; set_solver).
  apply record_eq_origin.
  - by rewrite !reclassify_record_origin.
  - unfold reclassify_record.
    destruct (null_genotypes_fixed reclass1 plus_samples1 (annotate reclass1 record))
      as (_ & _ & _ & _ & _ & -> & _).
    destruct (null_genotypes_fixed reclass2 plus_samples2 (annotate reclass2 record))
      as (_ & _ & _ & _ & _ & -> & _).
    unfold annotate. by rewrite He, Hd, Hv, Hu, Hm.
  - unfold reclassify_record.
    destruct (null_genotypes_fixed reclass1 plus_samples1 (annotate reclass1 record))
      as (_ & _ & _ & _ & _ & _ & ->).
    destruct (null_genotypes_fixed reclass2 plus_samples2 (annotate reclass2 record))
      as (_ & _ & _ & _ & _ & _ & ->).
    unfold annotate. by rewrite He, Hd, Hv, Hu, Hm.
  - intros s. rewrite !reclassify_record_lookup.
    destruct (samples record !! s) as [smp|] eqn:Hs; [|done].
    cbn [fmap option_fmap option_map]. unfold nulled.
    rewrite He, Hd, Hu, Hm.
    assert (py_in s plus_samples1 = py_in s plus_samples2) as ->; [|done].
    apply py_in_agree. eapply Forall_forall in Hroster; [done|].
    apply elem_of_keys. by eexists.
Qed.

(** A run of X2 on [varA]: repeated and unknown labels, a repeated roster
    name and a roster name that is no sample of the record. *)
Lemma reclassify_record_membership_witness :
  reclassify_record varA
    ["NOT_A_LABEL"; "PCRPLUS_DEPLETED"; "PCRPLUS_ENRICHED"; "PCRPLUS_DEPLETED"]
    ["S2"; "S2"; "S9"]
  = reclassify_record varA ["PCRPLUS_ENRICHED"; "PCRPLUS_DEPLETED"] ["S2"].
Proof.
  apply reclassify_record_membership.
  - apply (bool_decide_unpack _). vm_compute. exact I.
  - apply (bool_decide_unpack _). vm_compute. exact I.
Defined.

Lemma record_eta (record : VariantRecord) :
  mkRecord (chrom record) (pos record) (id record) (ref record) (alts record)
    (filter record) (info record) (samples record) = record.
Proof. by destruct record. Qed.

(** X3. Labels that are none of the five recognised ones do nothing: the
    record comes back as it was, whatever the roster. *)
Theorem unrecognised_labels_ignored (record : VariantRecord)
    (reclass plus_samples : list string) :
  Forall (λ label, label ∉ reclass) recognised →
  reclassify_record record reclass plus_samples = record.
Proof.
  intros Hnone.
  assert (∀ label, label ∈ recognised → py_in label reclass = false) as Hin.
  { intros label Hl. apply py_in_false. by eapply Forall_forall in Hnone. }
  unfold reclassify_record, null_genotypes, annotate.
  rewrite !Hin by (unfold recognised; set_solver). done.
Qed.

(** A run of X3 on [varA]. *)
Lemma unrecognised_labels_ignored_witness :
  reclassify_record varA ["PCRPLUS_ENRICHED "; "pcrplus_depleted"] ["S1"] = varA.
Proof.
  apply unrecognised_labels_ignored.
  apply (bool_decide_unpack _). vm_compute. exact I.
Defined.

(** X4. The rule table keeps its columns apart.  Without the labels
    [PCRPLUS_DEPLETED] and [UNSTABLE_AF_PCRPLUS] the INFO map is as before;
    without [PCRPLUS_ENRICHED], [VARIABLE_ACROSS_BATCHES] and
    [UNSTABLE_AF_PCRMINUS] the FILTER set is as before.  A flag whose label
    is present is [True] afterwards, whatever value the key had, and no key
    leaves INFO. *)
Theorem annotation_columns (record : VariantRecord)
    (reclass plus_samples : list string) :
  let record' := reclassify_record record reclass plus_samples in
  ("PCRPLUS_DEPLETED" ∉ reclass → "UNSTABLE_AF_PCRPLUS" ∉ reclass →
     info record' = info record)
  ∧ ("PCRPLUS_ENRICHED" ∉ reclass → "VARIABLE_ACROSS_BATCHES" ∉ reclass →
     "UNSTABLE_AF_PCRMINUS" ∉ reclass → filter record' = filter record)
  ∧ (∀ key, key = "PCRPLUS_DEPLETED" ∨ key = "UNSTABLE_AF_PCRPLUS" →
       key ∈ reclass → info record' !! key = Some (VBool true))
  ∧ dom (info record) ⊆ dom (info record').
Proof.
  intros record'. subst record'. split; [|split; [|split]].
  - intros Hd Hu. apply map_eq. intros key. rewrite reclassify_record_info.
    destruct (bool_decide _) eqn:Hkey; [|done].
    apply bool_decide_eq_true in Hkey as [->| ->]; cbn [andb];
      by rewrite (proj2 (py_in_false _ _)).
  - intros He Hv Hm. apply set_eq. intros tag.
    rewrite reclassify_record_filter. unfold triggered, adds_tag. split.
    + intros [[Hin Htag]|[? _]]; [|done].
      destruct Htag as [Heq|[Heq|Heq]]; rewrite Heq in Hin; done.
    + intros Htag. right. split; [done|]. intros [_ [?|[?|?]]]; done.
  - intros key Hkey Hin. rewrite reclassify_record_info.
    rewrite bool_decide_eq_true_2 by done.
    by rewrite (proj2 (py_in_true _ _) Hin).
  - intros key. rewrite !elem_of_dom, reclassify_record_info.
    by destruct (_ && _).
Qed.

(** A run of X4 on [varA]: [VARIABLE_ACROSS_BATCHES] leaves INFO alone and
    [PCRPLUS_DEPLETED] leaves FILTER alone. *)
Lemma annotation_columns_witness :
  info (reclassify_record varA ["VARIABLE_ACROSS_BATCHES"] ["S1"]) = info varA
  ∧ filter (reclassify_record varA ["PCRPLUS_DEPLETED"] ["S1"]) = filter varA.
Proof.
  split.
  - apply (proj1 (annotation_columns varA ["VARIABLE_ACROSS_BATCHES"] ["S1"]));
      apply (bool_decide_unpack _); vm_compute; exact I.
  - apply (proj1 (proj2 (annotation_columns varA ["PCRPLUS_DEPLETED"] ["S1"])));
      apply (bool_decide_unpack _); vm_compute; exact I.
Defined.

(** ** More on the emission filter *)

Lemma NULL_GT_in_NULL_GTs : NULL_GT ∈ NULL_GTs.
Proof. apply (bool_decide_unpack _). by vm_compute. Qed.

(** Reclassification never makes a sample informative: a sample is
    informative afterwards exactly when it was before and was not nulled. *)
Lemma informative_reclassified (record : VariantRecord)
    (reclass plus_samples : list string) (s : string) :
  informative (reclassify_record record reclass plus_samples) s
  = informative record s && negb (nulled reclass plus_samples s).
Proof.
  unfold informative, genotype. rewrite reclassify_record_lookup.
  destruct (samples record !! s) as [smp|]; [|done]. cbn.
  destruct (nulled reclass plus_samples s); cbn [negb].
  - rewrite null_GT_lookup, andb_false_r.
    by rewrite (bool_decide_eq_true_2 _ NULL_GT_in_NULL_GTs).
  - by rewrite andb_true_r.
Qed.

Lemma existsb_ext_in {A : Type} (f g : A → bool) (l : list A) :
  (∀ x, f x = g x) → existsb f l = existsb g l.
Proof. intros Hfg. induction l as [|x l IH]; cbn; by rewrite ?Hfg, ?IH. Qed.

(** X5. The emission decision, read on the input record: a well-formed
    record with a table entry is written, reclassified, exactly when one of
    the header samples had a genotype outside of [NULL_GTs] and is not
    nulled by the labels; otherwise nothing is written.  No exception is
    raised. *)
Theorem emission_from_input (header_samples : list string)
    (reclass_table : gmap string (list string)) (plus_samples : list string)
    (record : VariantRecord) (reclass : list string) (fout : list VariantRecord) :
  well_formed header_samples record →
  table_get reclass_table (id record) = Some reclass →
  process_record header_samples reclass_table plus_samples record fout
  = (if existsb (λ s, informative record s
                      && negb (nulled reclass plus_samples s)) header_samples
     then fout ++ [reclassify_record record reclass plus_samples]
     else fout, Ok tt).
Proof.
  intros Hwf Hget.
  rewrite (process_record_reclassified _ _ plus_samples _ _ fout Hwf Hget).
  cbv zeta.
  by rewrite (existsb_ext_in _ _ _ (informative_reclassified record reclass plus_samples)).
Qed.

(** A run of X5 on [varA] with the roster [[S1; S2]] and the label
    [PCRPLUS_DEPLETED]: the two informative samples are nulled and the
    record is dropped. *)
Lemma emission_from_input_witness :
  process_record ["S1"; "S2"; "S3"] {[ "varA" := ["PCRPLUS_DEPLETED"] ]}
    ["S1"; "S2"] varA [] = ([], Ok tt).
Proof.
  rewrite (emission_from_input ["S1"; "S2"; "S3"]
             {[ "varA" := ["PCRPLUS_DEPLETED"] ]} ["S1"; "S2"] varA
             ["PCRPLUS_DEPLETED"] [] well_formed_varA).
  - vm_compute. reflexivity.
  - vm_compute. reflexivity.
Defined.

(** A loop over a record whose samples all have the genotype
    [(None, None)] writes nothing, also when it ends on a missing key. *)
Lemma emit_loop_all_null (header_samples : list string)
    (record : VariantRecord) (fout : list VariantRecord) :
  (∀ s smp, samples record !! s = Some smp → smp !! "GT" = Some NULL_GT) →
  (emit_loop header_samples record fout).1 = fout.
Proof.
  intros Hnull. induction header_samples as [|s hs IH]; [done|].
  cbn [emit_loop]. unfold mbind, M_bind, getitem.
  destruct (samples record !! s) as [smp|] eqn:Hs; [|done].
  unfold mret, M_ret. rewrite (Hnull _ _ Hs).
  by rewrite (bool_decide_eq_true_2 _ NULL_GT_in_NULL_GTs).
Qed.

(** With the empty roster, a record whose table entry holds
    [PCRPLUS_ENRICHED] or [UNSTABLE_AF_PCRPLUS] is not written: all its
    samples are nulled, so the loop finds none to write it for. *)
Lemma process_record_all_nulled (header_samples : list string)
    (reclass_table : gmap string (list string))
    (record : VariantRecord) (reclass : list string) (fout : list VariantRecord) :
  table_get reclass_table (id record) = Some reclass →
  "PCRPLUS_ENRICHED" ∈ reclass ∨ "UNSTABLE_AF_PCRPLUS" ∈ reclass →
  (process_record header_samples reclass_table [] record fout).1 = fout.
Proof.
  intros Hget Hlabel. unfold process_record. rewrite Hget.
  apply emit_loop_all_null. intros s smp'. rewrite reclassify_record_lookup.
  assert (nulled reclass [] s = true) as ->.
  { unfold nulled. rewrite py_in_nil. cbn [negb].
    rewrite andb_true_r, andb_false_r, orb_false_r.
    apply orb_true_iff. by rewrite !py_in_true. }
  destruct (samples record !! s) as [smp|]; [|done].
  cbn. intros [= <-]. apply null_GT_lookup.
Qed.

(** What one step of the record loop can do to the output: nothing, or one
    more record that has the columns of the record read. *)
Lemma process_record_out (header_samples : list string)
    (reclass_table : gmap string (list string)) (plus_samples : list string)
    (record : VariantRecord) (fout out : list VariantRecord) (res : result unit) :
  process_record header_samples reclass_table plus_samples record fout
  = (out, res) →
  out = fout
  ∨ ∃ record', out = fout ++ [record'] ∧ res = Ok tt
      ∧ origin record' = origin record
      ∧ (record' = record ∧ table_get reclass_table (id record) = None
         ∨ ∃ reclass, table_get reclass_table (id record) = Some reclass
             ∧ record' = reclassify_record record reclass plus_samples).
Proof.
  unfold process_record.
  destruct (table_get reclass_table (id record)) as [reclass|] eqn:Hget.
  - intros [->|[-> ->]]%emit_loop_out; [by left|]. right.
    eexists. split; [done|]. split; [done|].
    split; [apply reclassify_record_origin|]. right. by exists reclass.
  - unfold write. intros [= <- <-]. right. exists record.
    split; [done|]. split; [done|]. split; [done|]. by left.
Qed.

Lemma origin_id (record1 record2 : VariantRecord) :
  origin record1 = origin record2 → id record1 = id record2.
Proof. unfold origin. by intros [= _ _ ? _ _]. Qed.

(** X6. A run of [main] never writes a record whose table entry holds
    [PCRPLUS_ENRICHED] or [UNSTABLE_AF_PCRPLUS]: with the empty roster of
    line 131 these labels null every sample, and a record without a genotype
    outside of [NULL_GTs] is not written.  This holds for every run, also one
    that an exception stops. *)
Theorem main_never_writes_enriched (vcf : VariantFile)
    (reclassifications : list (list string))
    (unstable_af_pcrplus unstable_af_pcrminus : option (list string))
    (reclass_table : gmap string (list string))
    (out : list VariantRecord) (res : result unit) :
  load_table reclassifications unstable_af_pcrplus unstable_af_pcrminus []
  = ([], Ok reclass_table) →
  run_main vcf reclassifications unstable_af_pcrplus unstable_af_pcrminus
  = (out, res) →
  ∀ record reclass, record ∈ out →
    table_get reclass_table (id record) = Some reclass →
    ("PCRPLUS_ENRICHED" ∉ reclass) ∧ ("UNSTABLE_AF_PCRPLUS" ∉ reclass).
Proof.
  intros Hload. unfold run_main, main, mbind, M_bind. rewrite Hload.
  set (P := λ record : VariantRecord, ∀ reclass,
              table_get reclass_table (id record) = Some reclass →
              ("PCRPLUS_ENRICHED" ∉ reclass) ∧ ("UNSTABLE_AF_PCRPLUS" ∉ reclass)).
  assert (∀ rs fout, Forall P fout →
            for_each (process_record (header_samples vcf) reclass_table []) rs fout
            = (out, res) → Forall P out) as Hinv.
  { induction rs as [|record rs IH]; intros fout Hfout.
    - cbn. by intros [= <- _].
    - cbn [for_each]. unfold mbind, M_bind.
      destruct (process_record _ _ _ record fout) as [fout' res'] eqn:Hstep.
      assert (Forall P fout') as Hfout'.
      { pose proof Hstep as Hout.
        apply process_record_out in Hout
          as [->|(record' & -> & _ & Horigin & Hcase)]; [done|].
        apply Forall_app. split; [done|]. apply Forall_singleton.
        intros reclass Hget. rewrite (origin_id _ _ Horigin) in Hget.
        destruct Hcase as [[_ Hnone]|(reclass' & Hget' & ->)]; [congruence|].
        assert (reclass' = reclass) as -> by congruence.
        destruct (decide ("PCRPLUS_ENRICHED" ∈ reclass
                          ∨ "UNSTABLE_AF_PCRPLUS" ∈ reclass)) as [Hlabel|Hno];
          [|tauto].
        pose proof (process_record_all_nulled (header_samples vcf) reclass_table
                      record reclass fout Hget' Hlabel) as Hsame.
        rewrite Hstep in Hsame. cbn in Hsame.
        apply (f_equal length) in Hsame. rewrite length_app in Hsame.
        cbn in Hsame. lia. }
      destruct res' as [[]|e]; [by apply IH|]. by intros [= <- _]. }
  intros Hrun record reclass Hin.
  eapply Forall_forall in Hin; [|by eapply (Hinv _ []), Hrun].
  apply Hin.
Qed.

(** A run of X6: [varA] is labelled [PCRPLUS_ENRICHED] by the table and is
    not in the output; [varN] has no entry and is. *)
Lemma main_never_writes_enriched_witness :
  Forall (λ record, ∀ reclass,
            table_get {[ "varA" := ["PCRPLUS_ENRICHED"] ]} (id record)
            = Some reclass →
            ("PCRPLUS_ENRICHED" ∉ reclass) ∧ ("UNSTABLE_AF_PCRPLUS" ∉ reclass))
    [varN].
Proof.
  apply Forall_forall. intros record Hin reclass. revert record reclass Hin.
  apply (main_never_writes_enriched
           (mkVariantFile ["S1"; "S2"; "S3"] [varN; varA])
           [["varA"; "PCRPLUS_ENRICHED"]] None None
           {[ "varA" := ["PCRPLUS_ENRICHED"] ]} [varN] (Ok tt)).
  - vm_compute. reflexivity.
  - vm_compute. reflexivity.
Defined.

(** The loop passes over a sample whose genotype is in [NULL_GTs]. *)
Lemma emit_loop_skip (s : string) (header_samples : list string)
    (record : VariantRecord) (fout : list VariantRecord) (gt : value) :
  genotype record s = Some gt → gt ∈ NULL_GTs →
  emit_loop (s :: header_samples) record fout
  = emit_loop header_samples record fout.
Proof.
  unfold genotype. intros Hgt Hnull.
  destruct (samples record !! s) as [smp|] eqn:Hs; [|done]. cbn in Hgt.
  rewrite (emit_loop_cons _ _ _ _ _ _ Hs Hgt).
  by rewrite bool_decide_eq_true_2.
Qed.

(** X7. The loop of lines 148-151 is decided by the first header sample
    whose genotype is not in [NULL_GTs]: if that sample has a genotype
    outside of [NULL_GTs] the record is written and the samples after it are
    not looked at, so a key missing there raises nothing; if that sample is
    missing from the record, or has no [GT], the loop ends on [KeyError] with
    nothing written. *)
Theorem emit_loop_first_decides (before after : list string) (s : string)
    (record : VariantRecord) (fout : list VariantRecord) :
  Forall (λ s', ∃ gt, genotype record s' = Some gt ∧ gt ∈ NULL_GTs) before →
  ((∃ gt, genotype record s = Some gt ∧ gt ∉ NULL_GTs) →
     emit_loop (before ++ s :: after) record fout = (fout ++ [record], Ok tt))
  ∧ (genotype record s = None →
     emit_loop (before ++ s :: after) record fout = (fout, Raise KeyError)).
Proof.
  intros Hbefore.
  assert (emit_loop (before ++ s :: after) record fout
          = emit_loop (s :: after) record fout) as ->.
  { induction Hbefore as [|s' before (gt & Hgt & Hnull) _ IH]; [done|].
    rewrite <- app_comm_cons. by rewrite (emit_loop_skip _ _ _ _ _ Hgt Hnull). }
  split.
  - intros (gt & Hgt & Hout). unfold genotype in Hgt.
    destruct (samples record !! s) as [smp|] eqn:Hs; [|done]. cbn in Hgt.
    rewrite (emit_loop_cons _ _ _ _ _ _ Hs Hgt).
    by rewrite bool_decide_eq_false_2.
  - unfold genotype. intros Hnone. cbn [emit_loop].
    unfold mbind, M_bind, getitem.
    destruct (samples record !! s) as [smp|]; [|done]. cbn in Hnone.
    unfold mret, M_ret. by rewrite Hnone.
Qed.

(** A run of X7 on [varA]: [S3] is homozygous reference and [S2] is not, so
    the record is written although the header names a sample [S9] that the
    record does not have; with [S9] in front of [S2] the loop raises. *)
Lemma emit_loop_first_decides_witness :
  emit_loop (["S3"] ++ "S2" :: ["S9"]) varA [] = ([varA], Ok tt)
  ∧ emit_loop (["S3"] ++ "S9" :: ["S2"]) varA [] = ([], Raise KeyError).
Proof.
  assert (Forall (λ s', ∃ gt, genotype varA s' = Some gt ∧ gt ∈ NULL_GTs) ["S3"])
    as Hbefore.
  { apply Forall_singleton. exists (VTuple [Some 0%Z; Some 0%Z]).
    split; [vm_compute; reflexivity|].
    apply (bool_decide_unpack _). vm_compute. exact I. }
  split.
  - apply (proj1 (emit_loop_first_decides ["S3"] ["S9"] "S2" varA [] Hbefore)).
    exists (VTuple [Some 1%Z; Some 1%Z]). split; [vm_compute; reflexivity|].
    apply (bool_decide_unpack _). vm_compute. exact I.
  - apply (proj2 (emit_loop_first_decides ["S3"] ["S2"] "S9" varA [] Hbefore)).
    vm_compute. reflexivity.
Defined.

Lemma existsb_Permutation {A : Type} (f : A → bool) (l1 l2 : list A) :
  l1 ≡ₚ l2 → existsb f l1 = existsb f l2.
Proof.
  induction 1 as [|x l1 l2 _ IH|x y l|l1 l2 l3 _ IH1 _ IH2]; cbn.
  - done.
  - by rewrite IH.
  - by destruct (f x), (f y).
  - by rewrite IH1.
Qed.

(** X8. For a well-formed record, the order in which the header lists the
    samples makes no difference to what the loop body does. *)
Theorem emission_order_independent (header_samples1 header_samples2 : list string)
    (reclass_table : gmap string (list string)) (plus_samples : list string)
    (record : VariantRecord) (fout : list VariantRecord) :
  well_formed header_samples1 record →
  header_samples1 ≡ₚ header_samples2 →
  process_record header_samples1 reclass_table plus_samples record fout
  = process_record header_samples2 reclass_table plus_samples record fout.
Proof.
  intros Hwf1 Hperm.
  assert (well_formed header_samples2 record) as Hwf2.
  { destruct Hwf1 as [Hdom Hgt]. split; [|done].
    intros s. rewrite <- Hdom. by rewrite Hperm. }
  destruct (table_get reclass_table (id record)) as [reclass|] eqn:Hget.
  - rewrite (process_record_reclassified _ _ plus_samples _ _ fout Hwf1 Hget).
    rewrite (process_record_reclassified _ _ plus_samples _ _ fout Hwf2 Hget).
    cbv zeta. by rewrite (existsb_Permutation _ _ _ Hperm).
  - unfold process_record. by rewrite Hget.
Qed.

(** A run of X8 on [varA], with the header samples in two orders. *)
Lemma emission_order_independent_witness :
  process_record ["S1"; "S2"; "S3"] {[ "varA" := ["PCRPLUS_DEPLETED"] ]} ["S1"]
    varA []
  = process_record ["S3"; "S1"; "S2"] {[ "varA" := ["PCRPLUS_DEPLETED"] ]} ["S1"]
      varA [].
Proof.
  apply emission_order_independent.
  - apply well_formed_varA.
  - apply (bool_decide_unpack _). vm_compute. exact I.
Defined.

(** ** Whole runs *)

Lemma process_record_written (header_samples : list string)
    (reclass_table : gmap string (list string)) (plus_samples : list string)
    (record : VariantRecord) (fout : list VariantRecord) :
  well_formed header_samples record →
  process_record header_samples reclass_table plus_samples record fout
  = (fout ++ option_list
               (written header_samples reclass_table plus_samples record),
     Ok tt).
Proof.
  intros Hwf. unfold written.
  destruct (table_get reclass_table (id record)) as [reclass|] eqn:Hget.
  - rewrite (process_record_reclassified _ _ plus_samples _ _ fout Hwf Hget).
    cbv zeta. destruct (existsb _ _); cbn; by rewrite ?app_nil_r.
  - unfold process_record. by rewrite Hget.
Qed.

Lemma for_each_written (header_samples : list string)
    (reclass_table : gmap string (list string)) (plus_samples : list string)
    (rs fout : list VariantRecord) :
  Forall (well_formed header_samples) rs →
  for_each (process_record header_samples reclass_table plus_samples) rs fout
  = (fout ++ omap (written header_samples reclass_table plus_samples) rs,
     Ok tt).
Proof.
  intros Hwf. revert fout.
  induction Hwf as [|record rs Hrecord _ IH]; intros fout.
  - cbn. by rewrite app_nil_r.
  - cbn [for_each]. unfold mbind, M_bind.
    rewrite (process_record_written _ _ _ _ _ Hrecord), IH. f_equal.
    rewrite <- app_assoc. f_equal. cbn [omap list_omap].
    by destruct (written _ _ _ record).
Qed.

(** The loop stops at the first record whose step raises: what was written
    before stays, and the records after it are not processed. *)
Lemma for_each_app_raise {A : Type} (body : A → M unit) (xs ys : list A) (x : A)
    (fout out out' : list VariantRecord) (e : exn) :
  for_each body xs fout = (out, Ok tt) →
  body x out = (out', Raise e) →
  for_each body (xs ++ x :: ys) fout = (out', Raise e).
Proof.
  revert fout. induction xs as [|x' xs IH]; intros fout.
  - cbn. intros [= <-] Hx. unfold mbind, M_bind. by rewrite Hx.
  - cbn [for_each app]. unfold mbind, M_bind.
    destruct (body x' fout) as [fout' [[]|e']]; [apply IH|done].
Qed.

(** X9. When every row of the table has two fields and every record of the
    VCF is well formed, [main] ends normally.  Its output is, in the order of
    the input: each record without a table entry as it is, each record with
    an entry reclassified with the empty roster if one of its samples is
    then informative, and nothing for the others. *)
Theorem main_well_formed_run (vcf : VariantFile)
    (reclassifications : list (list string))
    (unstable_af_pcrplus unstable_af_pcrminus : option (list string)) :
  Forall (λ row, length row = 2) reclassifications →
  Forall (well_formed (header_samples vcf)) (records vcf) →
  ∃ reclass_table,
    load_table reclassifications unstable_af_pcrplus unstable_af_pcrminus []
    = ([], Ok reclass_table)
    ∧ run_main vcf reclassifications unstable_af_pcrplus unstable_af_pcrminus
      = (omap (written (header_samples vcf) reclass_table []) (records vcf),
         Ok tt).
Proof.
  intros Hrows Hwf. eexists. split; [by apply load_table_ok|].
  unfold run_main, main, mbind, M_bind. rewrite load_table_ok by done.
  by rewrite for_each_written.
Qed.

(** A run of X9: [varN] has no entry and is written, [varA] is labelled
    [PCRPLUS_DEPLETED] by the table and [UNSTABLE_AF_PCRMINUS] by a list and
    is written with the flag and the tag, its genotypes kept. *)
Lemma main_well_formed_run_witness :
  ∃ reclass_table,
    load_table [["varA"; "PCRPLUS_DEPLETED"]] None (Some ["varA" +:+ LF]) []
    = ([], Ok reclass_table)
    ∧ run_main (mkVariantFile ["S1"; "S2"; "S3"] [varA])
        [["varA"; "PCRPLUS_DEPLETED"]] None (Some ["varA" +:+ LF])
      = (omap (written ["S1"; "S2"; "S3"] reclass_table []) [varA], Ok tt).
Proof.
  apply (main_well_formed_run (mkVariantFile ["S1"; "S2"; "S3"] [varA])
           [["varA"; "PCRPLUS_DEPLETED"]] None (Some ["varA" +:+ LF])).
  - repeat constructor.
  - apply Forall_singleton. apply well_formed_varA.
Defined.

Lemma for_each_sublist (header_samples : list string)
    (reclass_table : gmap string (list string)) (plus_samples : list string)
    (rs fout out : list VariantRecord) (res : result unit) :
  for_each (process_record header_samples reclass_table plus_samples) rs fout
  = (out, res) →
  ∃ ws, out = fout ++ ws ∧ origin <$> ws `sublist_of` origin <$> rs.
Proof.
  revert fout. induction rs as [|record rs IH]; intros fout.
  - cbn. intros [= <- _]. exists []. by rewrite app_nil_r.
  - cbn [for_each]. unfold mbind, M_bind.
    destruct (process_record _ _ _ record fout) as [fout' res'] eqn:Hstep.
    apply process_record_out in Hstep
      as [->|(record' & -> & -> & Horigin & _)].
    + destruct res' as [[]|e].
      * intros (ws & -> & Hsub)%IH. exists ws. split; [done|].
        rewrite fmap_cons. by apply sublist_cons.
      * intros [= <- _]. exists []. rewrite app_nil_r.
        split; [done|]. apply sublist_nil_l.
    + intros (ws & -> & Hsub)%IH. exists (record' :: ws).
      rewrite <- app_assoc. split; [done|].
      rewrite !fmap_cons, Horigin. by apply sublist_skip.
Qed.

(** Loading the table writes nothing, however it ends. *)
Lemma load_table_fout (reclassifications : list (list string))
    (unstable_af_pcrplus unstable_af_pcrminus : option (list string))
    (fout : list VariantRecord) :
  (load_table reclassifications unstable_af_pcrplus unstable_af_pcrminus fout).1
  = fout.
Proof.
  assert (∀ reclass_table,
            (read_table reclassifications reclass_table fout).1 = fout) as Hread.
  { induction reclassifications as [|row reader IH]; intros reclass_table;
      [done|].
    destruct row as [|VID [|a [|]]]; try done. cbn. apply IH. }
  unfold load_table, mbind, M_bind. specialize (Hread ∅).
  by destruct (read_table reclassifications ∅ fout) as [fout' [t|e]].
Qed.

(** X10. Whatever the input and however the run ends, the records written
    are records read, in the order read and each at most once: the columns
    that identify a row (chromosome, position, ID, alleles) of the output are
    a subsequence of those of the input.  So the output is never longer than
    the input. *)
Theorem main_output_sublist (vcf : VariantFile)
    (reclassifications : list (list string))
    (unstable_af_pcrplus unstable_af_pcrminus : option (list string)) :
  origin <$> (run_main vcf reclassifications unstable_af_pcrplus
                unstable_af_pcrminus).1
    `sublist_of` origin <$> records vcf
  ∧ (length (run_main vcf reclassifications unstable_af_pcrplus
               unstable_af_pcrminus).1 ≤ length (records vcf))%nat.
Proof.
  assert (origin <$> (run_main vcf reclassifications unstable_af_pcrplus
                        unstable_af_pcrminus).1
            `sublist_of` origin <$> records vcf) as Hsub.
  { unfold run_main, main, mbind, M_bind.
    pose proof (load_table_fout reclassifications unstable_af_pcrplus
                  unstable_af_pcrminus []) as Hfout.
    destruct (load_table _ _ _ []) as [fout [reclass_table|e]];
      cbn in Hfout; subst fout; [|apply sublist_nil_l].
    destruct (for_each _ (records vcf) []) as [out res] eqn:Hrun.
    by apply for_each_sublist in Hrun as (ws & -> & Hsub). }
  split; [done|].
  apply sublist_length in Hsub. by rewrite !length_fmap in Hsub.
Qed.

(** X11. A missing key stops the run with the records written so far kept:
    when the records before [record] are well formed and [record] has a table
    entry but, reclassified, no genotype for the first header sample, the run
    over the records ends on [KeyError] with what the records before it gave,
    and the records after it are not processed. *)
Theorem key_error_keeps_output (s : string) (header_samples : list string)
    (reclass_table : gmap string (list string)) (plus_samples : list string)
    (before after : list VariantRecord) (record : VariantRecord)
    (reclass : list string) (fout : list VariantRecord) :
  Forall (well_formed (s :: header_samples)) before →
  table_get reclass_table (id record) = Some reclass →
  genotype (reclassify_record record reclass plus_samples) s = None →
  for_each (process_record (s :: header_samples) reclass_table plus_samples)
    (before ++ record :: after) fout
  = (fout ++ omap (written (s :: header_samples) reclass_table plus_samples)
               before,
     Raise KeyError).
Proof.
  intros Hwf Hget Hnone.
  eapply for_each_app_raise; [by apply for_each_written|].
  unfold process_record. rewrite Hget.
  unfold genotype in Hnone. cbn [emit_loop]. unfold mbind, M_bind, getitem.
  destruct (samples _ !! s) as [smp|]; [|done]. cbn in Hnone.
  unfold mret, M_ret. by rewrite Hnone.
Qed.

(** A run of X11: [varN] is written, then [varH], which has no sample [S2],
    raises, and [varA] is not reached. *)
Lemma key_error_keeps_output_witness :
  for_each (process_record ("S2" :: []) {[ "varH" := ["VARIABLE_ACROSS_BATCHES"] ]}
              [])
    ([] ++ varH :: [varA]) [varN]
  = ([varN] ++ omap (written ("S2" :: [])
                       {[ "varH" := ["VARIABLE_ACROSS_BATCHES"] ]} []) [],
     Raise KeyError).
Proof.
  apply (key_error_keeps_output "S2" [] {[ "varH" := ["VARIABLE_ACROSS_BATCHES"] ]}
           [] [] [varA] varH ["VARIABLE_ACROSS_BATCHES"] [varN]).
  - constructor.
  - vm_compute. reflexivity.
  - vm_compute. reflexivity.
Defined.

(** ** More on the loader *)

Lemma load_table_Ok_inv (reclassifications : list (list string))
    (unstable_af_pcrplus unstable_af_pcrminus : option (list string))
    (fout out : list VariantRecord) (reclass_table : gmap string (list string)) :
  load_table reclassifications unstable_af_pcrplus unstable_af_pcrminus fout
  = (out, Ok reclass_table) →
  reclass_table
  = add_pairs (all_pairs reclassifications unstable_af_pcrplus
                 unstable_af_pcrminus) ∅.
Proof.
  destruct (decide (Forall (λ row, length row = 2) reclassifications))
    as [Hok|Hbad].
  - rewrite load_table_ok by done. by intros [= _ <-].
  - apply not_Forall_Exists in Hbad; [|apply _].
    by rewrite load_table_bad.
Qed.

Lemma labels_of_nil_iff (pairs : list (string * string)) (v : string) :
  labels_of pairs v = [] ↔ v ∉ pairs.*1.
Proof.
  split; [|apply labels_of_absent].
  induction pairs as [|[VID a] pairs IH]; [intros _; apply not_elem_of_nil|].
  rewrite labels_of_cons, fmap_cons, not_elem_of_cons. cbn.
  destruct (decide (VID = v)) as [->|Hne]; [done|]. intros Hnil.
  split; [congruence|by apply IH].
Qed.

Lemma all_pairs_vids (reclassifications : list (list string))
    (unstable_af_pcrplus unstable_af_pcrminus : option (list string)) :
  (all_pairs reclassifications unstable_af_pcrplus unstable_af_pcrminus).*1
  = (row_pairs reclassifications).*1 ++ listed unstable_af_pcrplus
    ++ listed unstable_af_pcrminus.
Proof.
  unfold all_pairs, list_pairs, listed. rewrite !fmap_app.
  by rewrite <- !list_fmap_compose.
Qed.

(** X12. The table that the loader hands over has an entry exactly for the
    VIDs named by a row of the main table or by a line of one of the two
    lists, and no entry is an empty list of labels. *)
Theorem loaded_table_entries (reclassifications : list (list string))
    (unstable_af_pcrplus unstable_af_pcrminus : option (list string))
    (fout out : list VariantRecord) (reclass_table : gmap string (list string)) :
  load_table reclassifications unstable_af_pcrplus unstable_af_pcrminus fout
  = (out, Ok reclass_table) →
  (∀ v, is_Some (reclass_table !! v)
        ↔ v ∈ (row_pairs reclassifications).*1
          ∨ v ∈ listed unstable_af_pcrplus
          ∨ v ∈ listed unstable_af_pcrminus)
  ∧ (∀ v labels, reclass_table !! v = Some labels → labels ≠ []).
Proof.
  intros ->%load_table_Ok_inv. split.
  - intros v. rewrite add_pairs_lookup.
    rewrite <- !elem_of_app, <- all_pairs_vids.
    destruct (labels_of _ v) as [|a l] eqn:Hlabels; cbn.
    + apply labels_of_nil_iff in Hlabels. split; [by intros [? ?]|done].
    + split; [|by eauto]. intros _.
      destruct (decide (v ∈ (all_pairs reclassifications unstable_af_pcrplus
                               unstable_af_pcrminus).*1)) as [|Hnot]; [done|].
      apply labels_of_nil_iff in Hnot. congruence.
  - intros v labels Hv ->. revert Hv. apply add_pairs_no_empty_entry.
    intros v'. by rewrite lookup_empty.
Qed.

(** A run of X12: the entries of a table made of one row and one list. *)
Lemma loaded_table_entries_witness :
  (∀ v, is_Some (add_pairs [("varA", "PCRPLUS_ENRICHED");
                            ("varC", "UNSTABLE_AF_PCRPLUS")] ∅ !! v)
        ↔ v ∈ (row_pairs [["varA"; "PCRPLUS_ENRICHED"]]).*1
          ∨ v ∈ listed (Some ["varC" +:+ LF]) ∨ v ∈ listed None)
  ∧ (∀ v labels,
       add_pairs [("varA", "PCRPLUS_ENRICHED");
                  ("varC", "UNSTABLE_AF_PCRPLUS")] ∅ !! v = Some labels →
       labels ≠ []).
Proof.
  apply (loaded_table_entries [["varA"; "PCRPLUS_ENRICHED"]]
           (Some ["varC" +:+ LF]) None [] []).
  vm_compute. reflexivity.
Defined.

(** ** [rstrip] *)

Lemma append_nil_l (s : string) : "" +:+ s = s.
Proof. reflexivity. Qed.

Lemma append_cons (c : Ascii.ascii) (s t : string) :
  String c s +:+ t = String c (s +:+ t).
Proof. reflexivity. Qed.

Lemma rstrip_newline_newlines (k : nat) : rstrip_newline (newlines k) = "".
Proof.
  induction k as [|k IH]; [done|]. cbn [newlines rstrip_newline].
  rewrite IH. by rewrite Ascii.eqb_refl.
Qed.

(** X13. [rstrip] takes off the newlines at the end and nothing else: a line
    is its stripped form followed by newlines only, and the stripped form
    does not end with a newline. *)
Theorem rstrip_newline_spec (line : string) :
  ∃ k, line = rstrip_newline line +:+ newlines k
       ∧ ends_with_newline (rstrip_newline line) = false.
Proof.
  induction line as [|c line (k & Hline & Hend)].
  - by exists 0.
  - cbn [rstrip_newline].
    destruct (rstrip_newline line) as [|c' rest] eqn:Hstrip.
    + rewrite append_nil_l in Hline. destruct (Ascii.eqb c newline) eqn:Hc.
      * apply Ascii.eqb_eq in Hc as ->. exists (S k).
        rewrite append_nil_l. cbn [newlines]. split; [congruence|done].
      * exists k. rewrite append_cons, append_nil_l.
        cbn [ends_with_newline]. split; [congruence|done].
    + exists k. rewrite append_cons. split; [congruence|done].
Qed.

(** Stripping a VID that does not end with a newline, followed by any
    number of newlines, gives the VID back; characters other than the newline
    (a space, a carriage return) stay. *)
Lemma rstrip_newline_append (vid : string) (k : nat) :
  ends_with_newline vid = false →
  rstrip_newline (vid +:+ newlines k) = vid.
Proof.
  induction vid as [|c vid IH]; intros Hend.
  - rewrite append_nil_l. apply rstrip_newline_newlines.
  - rewrite append_cons. cbn [rstrip_newline]. destruct vid as [|c' vid'].
    + rewrite append_nil_l, rstrip_newline_newlines.
      cbn in Hend. by rewrite Hend.
    + by rewrite IH.
Qed.

(** A VID followed by a carriage return and two newlines. *)
Lemma rstrip_newline_carriage_return :
  rstrip_newline (("varC" +:+ String (Ascii.ascii_of_nat 13) "") +:+ newlines 2)
  = "varC" +:+ String (Ascii.ascii_of_nat 13) "".
Proof. apply rstrip_newline_append. vm_compute. reflexivity. Defined.

Lemma elem_of_labels_of (pairs : list (string * string)) (v label : string) :
  label ∈ labels_of pairs v ↔ (v, label) ∈ pairs.
Proof.
  unfold labels_of. rewrite list_elem_of_fmap. split.
  - intros ([v' a] & -> & [Hv Hin]%list_elem_of_filter). cbn in Hv. by subst.
  - intros Hin. exists (v, label). split; [done|].
    by apply list_elem_of_filter.
Qed.

Lemma entry_elem_of (labels : list string) (label : string) :
  label ∈ labels → entry labels = Some labels.
Proof. destruct labels; [by intros ?%elem_of_nil|done]. Qed.

(** X14. A line of a list file labels the VID written on it: when a line of
    the unstable-AF-PCR-plus list is a VID that does not end with a newline
    followed by any number of newlines, the loaded table has an entry for that
    VID and [UNSTABLE_AF_PCRPLUS] is among its labels; likewise for the
    PCR-minus list and [UNSTABLE_AF_PCRMINUS]. *)
Theorem listed_vid_labelled (reclassifications : list (list string))
    (unstable_af_pcrplus unstable_af_pcrminus : option (list string))
    (fout out : list VariantRecord) (reclass_table : gmap string (list string))
    (vid : string) (k : nat) :
  load_table reclassifications unstable_af_pcrplus unstable_af_pcrminus fout
  = (out, Ok reclass_table) →
  ends_with_newline vid = false →
  (vid +:+ newlines k ∈ default [] unstable_af_pcrplus →
     ∃ labels, reclass_table !! vid = Some labels
               ∧ "UNSTABLE_AF_PCRPLUS" ∈ labels)
  ∧ (vid +:+ newlines k ∈ default [] unstable_af_pcrminus →
     ∃ labels, reclass_table !! vid = Some labels
               ∧ "UNSTABLE_AF_PCRMINUS" ∈ labels).
Proof.
  intros ->%load_table_Ok_inv Hend.
  assert (∀ assignment lines,
            vid +:+ newlines k ∈ default [] lines →
            (vid, assignment) ∈ list_pairs assignment lines) as Hpair.
  { intros assignment lines Hin. unfold list_pairs.
    apply list_elem_of_fmap. exists (vid +:+ newlines k).
    split; [|done]. by rewrite rstrip_newline_append. }
  split; intros Hin; eexists; rewrite add_pairs_lookup.
  - apply (Hpair "UNSTABLE_AF_PCRPLUS") in Hin.
    assert ("UNSTABLE_AF_PCRPLUS"
            ∈ labels_of (all_pairs reclassifications unstable_af_pcrplus
                           unstable_af_pcrminus) vid) as Hlabel.
    { apply elem_of_labels_of. unfold all_pairs. rewrite !elem_of_app. tauto. }
    split; [by eapply entry_elem_of|done].
  - apply (Hpair "UNSTABLE_AF_PCRMINUS") in Hin.
    assert ("UNSTABLE_AF_PCRMINUS"
            ∈ labels_of (all_pairs reclassifications unstable_af_pcrplus
                           unstable_af_pcrminus) vid) as Hlabel.
    { apply elem_of_labels_of. unfold all_pairs. rewrite !elem_of_app. tauto. }
    split; [by eapply entry_elem_of|done].
Qed.

(** A run of X14: the last line of the list has no newline at its end. *)
Lemma listed_vid_labelled_witness :
  ∃ labels,
    add_pairs [("varA", "PCRPLUS_ENRICHED"); ("varB", "UNSTABLE_AF_PCRPLUS");
               ("varA", "UNSTABLE_AF_PCRPLUS")] ∅ !! "varA" = Some labels
    ∧ "UNSTABLE_AF_PCRPLUS" ∈ labels.
Proof.
  destruct (listed_vid_labelled [["varA"; "PCRPLUS_ENRICHED"]]
              (Some ["varB" +:+ LF; "varA"]) None [] []
              (add_pairs [("varA", "PCRPLUS_ENRICHED");
                          ("varB", "UNSTABLE_AF_PCRPLUS");
                          ("varA", "UNSTABLE_AF_PCRPLUS")] ∅)
              "varA" 0) as [Hplus _].
  - vm_compute. reflexivity.
  - vm_compute. reflexivity.
  - apply Hplus. apply (bool_decide_unpack _). vm_compute. exact I.
Defined.
